(** * SourceCode_KnowledgeGraph_QA: ingestion pipeline and query answering

    A shallow embedding of [src/app.py]: the script that loads source
    files, splits them with five language splitters, writes the chunks
    into a Neo4j graph as [CodeChunk] nodes linked by [SAME_LANGUAGE]
    relationships, and answers questions through a Cypher QA chain.

    The third-party services the script calls (document loader, text
    splitter, graph schema introspection, LLM chain) are section
    variables; everything the script itself does with their results is
    modelled: metadata handling, the two Cypher statements, the control
    flow of [answer_query] and [main] with their exception handlers.
    [src/Untitled-1.py] is an earlier draft of the same script. *)

From stdpp Require Import base list strings gmap pretty.
From Stdlib Require Import ZArith Lia Ascii.

Set Warnings "-register-all".
Set Default Proof Using "Type".

(** ** Python values, exceptions, and the effect monad *)

(** The values that cross the boundary with the QA chain: what
    [chain.run] returns and what the script then inspects. Dictionary
    keys are strings, as in the chain's responses and Neo4j's rows. *)
Inductive pyval : Type :=
  | PyNone
  | PyBool (b : bool)
  | PyInt (z : Z)
  | PyStr (s : string)
  | PyList (xs : list pyval)
  | PyDict (kvs : list (string * pyval)).

(** An instance of Python's [Exception]: its class name and [str(e)]. *)
Record exn : Type := Exception { exn_class : string; exn_msg : string }.

Inductive result (A : Type) : Type :=
  | Ok (a : A)
  | Raise (e : exn).
Arguments Ok {A} a.
Arguments Raise {A} e.

(** The graph store. Nodes are never deleted by the script, so a node's
    identity is its position in the append-only node list; relationships
    are pairs of positions. *)
Record Node : Type := mkNode { name : string; content : string; language : string }.

Record Graph : Type := mkGraph { nodes : list Node; edges : gset (nat * nat) }.

(** What the process does to the outside world, in order. *)
Inductive Event : Type :=
  | EvLoad (directory : string)     (* loader.load() walks the directory *)
  | EvPrint (line : string)         (* print(...) *)
  | EvInput (prompt : string).      (* input(prompt) *)

(** [graph] is the database content, [schema] the [graph.schema]
    attribute cached on the client object, [trace] the events so far. *)
Record World : Type := mkWorld { graph : Graph; schema : string; trace : list Event }.

Definition M (A : Type) : Type := World → World * result A.

Definition ret {A} (a : A) : M A := λ w, (w, Ok a).
Definition bind {A B} (m : M A) (k : A → M B) : M B :=
  λ w, match m w with
       | (w', Ok a) => k a w'
       | (w', Raise e) => (w', Raise e)
       end.
Definition raise {A} (e : exn) : M A := λ w, (w, Raise e).

(** [try: body except Exception as e: handler(e)] *)
Definition try_except {A} (body : M A) (handler : exn → M A) : M A :=
  λ w, match body w with
       | (w', Ok a) => (w', Ok a)
       | (w', Raise e) => handler e w'
       end.

Definition lift_result {A} (r : result A) : M A := λ w, (w, r).

Declare Scope py_scope.
Delimit Scope py_scope with py.
Notation "x <- m ;; k" := (bind m (λ x, k))
  (at level 100, m at next level, right associativity) : py_scope.
Notation "m ;;; k" := (bind m (λ _, k))
  (at level 100, right associativity) : py_scope.
Local Open Scope py_scope.

Definition emit (e : Event) : M unit :=
  λ w, (mkWorld (graph w) (schema w) (trace w ++ [e]), Ok tt).
Definition print (line : string) : M unit := emit (EvPrint line).

Definition get_graph : M Graph := λ w, (w, Ok (graph w)).
Definition get_schema : M string := λ w, (w, Ok (schema w)).

(** [for x in xs: body(x)] *)
Fixpoint for_each {A} (xs : list A) (body : A → M unit) : M unit :=
  match xs with
  | [] => ret tt
  | x :: xs' => body x ;;; for_each xs' body
  end.

(** A computation that only ever adds events at the end of the trace. *)
Definition appends {A} (m : M A) : Prop :=
  ∀ w, ∃ tr, trace (m w).1 = trace w ++ tr.

(** ** The two Cypher statements of the ingestion pass *)

Definition has_name (n : string) (x : Node) : bool := bool_decide (name x = n).

Definition set_props (n c l : string) (x : Node) : Node :=
  if has_name n x then mkNode (name x) c l else x.

(** [MERGE (f:CodeChunk {name: $name}) SET f.content = $content,
    f.language = $language]: every node matching the name pattern gets
    the two properties; when none matches, one node is created. *)
Definition merge_chunk_nodes (n c l : string) (ns : list Node) : list Node :=
  if existsb (has_name n) ns then set_props n c l <$> ns
  else ns ++ [mkNode n c l].

Definition merge_chunk (n c l : string) (g : Graph) : Graph :=
  mkGraph (merge_chunk_nodes n c l (nodes g)) (edges g).

(** [MATCH (a:CodeChunk), (b:CodeChunk) WHERE a <> b AND a.language =
    b.language]: the rows of the match, as pairs of node positions. *)
Definition same_language_pairs (ns : list Node) : list (nat * nat) :=
  '(i, a) ← imap pair ns;
  '(j, b) ← imap pair ns;
  if bool_decide (i ≠ j ∧ language a = language b) then [(i, j)] else [].

(** [MERGE (a)-[:SAME_LANGUAGE]->(b)] over those rows: a relationship is
    created only where none exists; nothing is removed. *)
Definition merge_same_language (g : Graph) : Graph :=
  mkGraph (nodes g) (edges g ∪ list_to_set (same_language_pairs (nodes g))).

(** ** Documents *)

Record Document : Type :=
  mkDocument { page_content : string; metadata : gmap string string }.

(** [doc.metadata.get(key, default)] *)
Definition metadata_get (key dflt : string) (doc : Document) : string :=
  default dflt (metadata doc !! key).

(** [os.path.basename(p)]: the part of [p] after its last slash.
    [after_last_sep p cur] scans [p]; [cur] is the suffix that starts
    after the last slash seen so far. *)
Fixpoint after_last_sep (p cur : string) : string :=
  match p with
  | EmptyString => cur
  | String c r =>
      if Ascii.eqb c "/"%char then after_last_sep r r else after_last_sep r cur
  end.

Definition basename (p : string) : string := after_last_sep p p.

(** Body of the loop at lines 38-42: the document's name is the
    basename of its source path, or ['Unknown'] without a source. *)
Definition set_document_name (doc : Document) : Document :=
  match metadata doc !! "source" with
  | Some source =>
      mkDocument (page_content doc) (<["name" := basename source]> (metadata doc))
  | None =>
      mkDocument (page_content doc) (<["name" := "Unknown"]> (metadata doc))
  end.

(** The members of langchain's [Language] enumeration the script uses. *)
Inductive Language : Type := PYTHON | JS | GO | HTML | MARKDOWN.

(** Lines 47-53. *)
Definition languages : list Language := [PYTHON; JS; GO; HTML; MARKDOWN].

(** The parameters of the write issued for one chunk (lines 70-74). *)
Definition chunk_name (doc : Document) : string := metadata_get "name" "Unknown" doc.
Definition chunk_language (doc : Document) : string := metadata_get "language" "Unknown" doc.

Definition merge_document (doc : Document) (g : Graph) : Graph :=
  merge_chunk (chunk_name doc) (page_content doc) (chunk_language doc) g.

(** [graph.query(...)] with a statement that updates the store. *)
Definition graph_update (f : Graph → Graph) : M unit :=
  λ w, (mkWorld (f (graph w)) (schema w) (trace w), Ok tt).

(** ** Python operations used by [answer_query] *)

(** [d[key]] on a dictionary's items; a key occurs once in a dict. *)
Fixpoint dict_lookup (key : string) (kvs : list (string * pyval)) : option pyval :=
  match kvs with
  | [] => None
  | (k, v) :: rest => if String.eqb k key then Some v else dict_lookup key rest
  end.

(** [bool(v)] *)
Definition py_truthy (v : pyval) : bool :=
  match v with
  | PyNone => false
  | PyBool b => b
  | PyInt z => negb (Z.eqb z 0)
  | PyStr s => negb (String.eqb s "")
  | PyList xs => match xs with [] => false | _ => true end
  | PyDict kvs => match kvs with [] => false | _ => true end
  end.

Definition py_type_name (v : pyval) : string :=
  match v with
  | PyNone => "NoneType"
  | PyBool _ => "bool"
  | PyInt _ => "int"
  | PyStr _ => "str"
  | PyList _ => "list"
  | PyDict _ => "dict"
  end.

(** [str(type(v))] *)
Definition py_type_str (v : pyval) : string :=
  "<class '" +:+ py_type_name v +:+ "'>".

Definition TypeError (msg : string) : exn := Exception "TypeError" msg.
Definition KeyError (msg : string) : exn := Exception "KeyError" msg.
Definition IndexError (msg : string) : exn := Exception "IndexError" msg.
Definition AttributeError (msg : string) : exn := Exception "AttributeError" msg.
Definition ValueError (msg : string) : exn := Exception "ValueError" msg.
Definition EOFError (msg : string) : exn := Exception "EOFError" msg.

Definition not_subscriptable (v : pyval) : exn :=
  TypeError ("'" +:+ py_type_name v +:+ "' object is not subscriptable").

(** [v[key]] with a string key. *)
Definition py_getitem (v : pyval) (key : string) : result pyval :=
  match v with
  | PyDict kvs =>
      match dict_lookup key kvs with
      | Some x => Ok x
      | None => Raise (KeyError ("'" +:+ key +:+ "'"))
      end
  | PyList _ => Raise (TypeError "list indices must be integers or slices, not str")
  | PyStr _ => Raise (TypeError "string indices must be integers")
  | _ => Raise (not_subscriptable v)
  end.

(** [v[0]] *)
Definition py_first (v : pyval) : result pyval :=
  match v with
  | PyList (x :: _) => Ok x
  | PyList [] => Raise (IndexError "list index out of range")
  | PyStr (String c _) => Ok (PyStr (String c EmptyString))
  | PyStr EmptyString => Raise (IndexError "string index out of range")
  | PyDict _ => Raise (KeyError "0")
  | _ => Raise (not_subscriptable v)
  end.

(** [v.get(key, default)]: only dictionaries have the method. *)
Definition py_get (v : pyval) (key : string) (dflt : pyval) : result pyval :=
  match v with
  | PyDict kvs => Ok (default dflt (dict_lookup key kvs))
  | _ => Raise (AttributeError
                  ("'" +:+ py_type_name v +:+ "' object has no attribute 'get'"))
  end.

(** [v[:n]] *)
Definition py_prefix (n : nat) (v : pyval) : result pyval :=
  match v with
  | PyStr s => Ok (PyStr (String.substring 0 n s))
  | PyList xs => Ok (PyList (take n xs))
  | PyDict _ => Raise (TypeError "unhashable type: 'slice'")
  | _ => Raise (not_subscriptable v)
  end.

Definition is_dict (v : pyval) : bool := match v with PyDict _ => true | _ => false end.
Definition is_list (v : pyval) : bool := match v with PyList _ => true | _ => false end.

(** [key in v] for a dictionary [v]. *)
Definition dict_contains (key : string) (v : pyval) : bool :=
  match v with
  | PyDict kvs => match dict_lookup key kvs with Some _ => true | None => false end
  | _ => false
  end.

(** [len(v) > 0] for a list [v]. *)
Definition list_nonempty (v : pyval) : bool :=
  match v with PyList (_ :: _) => true | _ => false end.

(** [s.lower()] on the ASCII letters. *)
Definition lower_ascii (c : ascii) : ascii :=
  let n := nat_of_ascii c in
  if (65 <=? n)%nat && (n <=? 90)%nat then ascii_of_nat (n + 32) else c.

Fixpoint lower (s : string) : string :=
  match s with
  | EmptyString => EmptyString
  | String c r => String (lower_ascii c) (lower r)
  end.

(** The exit test of the question loop (line 201). *)
Definition is_exit (line : string) : bool := String.eqb (lower line) "exit".

(** A QA chain, seen through the one method the script calls:
    [chain.run(query)] returns a value or raises. *)
Definition Chain : Type := string → result pyval.

(** ** The script *)

Section Script.

(** [RecursiveCharacterTextSplitter.from_language(language=lang,
    chunk_size=1000, chunk_overlap=0).split_text]: the library's
    splitting of one text, per language. *)
Variable split_text : Language → string → list string.

(** [GenericLoader.from_filesystem(directory_path, ...).load()] with
    the glob, suffixes, exclusions and parser of lines 28-34: the
    documents found under a directory, or the exception raised. *)
Variable loader_load : string → result (list Document).

(** [graph.refresh_schema()] derives the schema text from the store. *)
Variable schema_of : Graph → string.

(** How f-strings render a list or an integer, and an enum member. *)
Variable py_repr : pyval → string.
Variable lang_str : Language → string.

(** [text_splitter.split_documents(documents)]: each text produced for
    a document becomes a document carrying a copy of its metadata. *)
Definition split_documents (lang : Language) (documents : list Document)
  : list Document :=
  doc ← documents;
  (λ text, mkDocument text (metadata doc)) <$> split_text lang (page_content doc).

Definition refresh_schema : M unit :=
  λ w, (mkWorld (graph w) (schema_of (graph w)) (trace w), Ok tt).

Definition load_documents (directory_path : string) : M (list Document) :=
  emit (EvLoad directory_path) ;;; lift_result (loader_load directory_path).

(** Lines 25-89. *)
Definition load_source_code_to_graph (directory_path : string) : M unit :=
  try_except
    (documents <- load_documents directory_path ;;
     let documents := set_document_name <$> documents in
     print ("Loaded documents: "
              +:+ py_repr (PyList ((λ doc, PyStr (chunk_name doc)) <$> documents))) ;;;
     for_each languages (λ lang,
       let split_docs := split_documents lang documents in
       print ("Split documents for " +:+ lang_str lang +:+ ": "
                +:+ py_repr (PyInt (Z.of_nat (length split_docs))) +:+ " chunks") ;;;
       for_each split_docs (λ doc, graph_update (merge_document doc))) ;;;
     graph_update merge_same_language ;;;
     refresh_schema ;;;
     schema <- get_schema ;;
     print ("Graph schema updated: " +:+ schema))
    (λ e,
       print ("Error loading source code: " +:+ exn_msg e) ;;;
       raise e).


(** [ChatOpenAI(...)] followed by [GraphCypherQAChain.from_llm(graph=
    graph, ...)] with the arguments of lines 104-140: the chain built
    over the store, or the exception raised while building it. *)
Variable chain_from_llm : Graph → result Chain.

(** [str(v)]: a string is rendered as itself. *)
Definition py_str (v : pyval) : string :=
  match v with PyStr s => s | _ => py_repr v end.

(** Lines 96-146. *)
Definition setup_qa_chain : M Chain :=
  try_except
    (refresh_schema ;;;
     schema <- get_schema ;;
     if String.eqb schema "" then
       raise (ValueError
         "Graph schema is empty. Make sure data has been loaded into the graph.")
     else
       g <- get_graph ;;
       chain <- lift_result (chain_from_llm g) ;;
       print "QA Chain setup successfully." ;;;
       ret chain)
    (λ e,
       print ("Error setting up QA Chain: " +:+ exn_msg e) ;;;
       raise e).

(** [response['intermediate_steps'][0][key]] *)
Definition first_step (response : pyval) (key : string) : result pyval :=
  match py_getitem response "intermediate_steps" with
  | Ok steps =>
      match py_first steps with
      | Ok step => py_getitem step key
      | Raise e => Raise e
      end
  | Raise e => Raise e
  end.

(** Lines 149-185. *)
Definition answer_query (chain : Chain) (query : string) : M string :=
  try_except
    (response <- lift_result (chain query) ;;
     if is_dict response && dict_contains "intermediate_steps" response then
       cypher_query <- lift_result (first_step response "query") ;;
       print "Generated Cypher query:" ;;;
       print (py_str cypher_query) ;;;
       cypher_result <- lift_result (first_step response "result") ;;
       print "Cypher query result:" ;;;
       print (py_str cypher_result) ;;;
       if negb (py_truthy cypher_result) then
         ret "No matching data found in the graph for this query."
       else if is_list cypher_result && list_nonempty cypher_result then
         row <- lift_result (py_first cypher_result) ;;
         content <- lift_result (py_get row "c.content" (PyStr "")) ;;
         if py_truthy content then
           shown <- lift_result (py_prefix 1000 content) ;;
           ret ("Found relevant content: " +:+ py_str shown +:+ "...")
         else
           ret "No relevant content found in the matched nodes."
       else
         ret ("Unexpected result format: " +:+ py_str cypher_result)
     else
       match response with
       | PyStr answer => ret answer
       | _ => ret ("Unable to generate an answer. Response structure: "
                     +:+ py_type_str response)
       end)
    (λ e,
       print ("Error in answer_query: " +:+ exn_msg e) ;;;
       ret ("An error occurred while processing your query: " +:+ exn_msg e)).

(** Line 92. *)
Definition directory_path : string := "/home/sarah/Documents/AI_Code/fabric".

Definition prompt : string :=
  "Ask a question about the code (or type 'exit' to quit): ".

(** The [while True] loop of lines 199-208 over the lines still to be
    read from standard input; [input()] raises [EOFError] when there
    is none left. *)
Fixpoint question_loop (qa_chain : Chain) (stdin : list string) : M unit :=
  emit (EvInput prompt) ;;;
  match stdin with
  | [] => raise (EOFError "EOF when reading a line")
  | user_query :: stdin' =>
      if is_exit user_query then ret tt
      else
        try_except
          (answer <- answer_query qa_chain user_query ;;
           print ("Answer: " +:+ answer))
          (λ e,
             print ("An error occurred while processing the query: "
                      +:+ exn_msg e)) ;;;
        print "" ;;;
        question_loop qa_chain stdin'
  end.

(** Lines 188-211. *)
Definition main (stdin : list string) : M unit :=
  try_except
    (print ("Loading source code from: " +:+ directory_path) ;;;
     load_source_code_to_graph directory_path ;;;
     g <- get_graph ;;
     let node_count := length (nodes g) in
     print ("Loaded " +:+ py_repr (PyInt (Z.of_nat node_count))
              +:+ " code chunks into the graph.") ;;;
     qa_chain <- setup_qa_chain ;;
     question_loop qa_chain stdin)
    (λ e, print ("An error occurred: " +:+ exn_msg e)) ;;;
  print "Exiting the program.".

(** Running the file as a program: the module body executes top to
    bottom, so the call of line 93 comes first and the guarded call
    of [main] (lines 214-215) last. The initial world is the store as
    the client of line 22 finds it. *)
Definition app (stdin : list string) : M unit :=
  load_source_code_to_graph directory_path ;;;
  main stdin.

End Script.

(** ** The net effect of one ingestion pass on the store *)

(** The writes the pass issues, in order: for each of the five splitters
    in turn, the chunks it produces for the whole document list. *)
Definition chunk_writes (split_text : Language → string → list string)
    (documents : list Document) : list Document :=
  lang ← languages;
  split_documents split_text lang (set_document_name <$> documents).

Definition apply_writes (writes : list Document) (g : Graph) : Graph :=
  foldl (λ g doc, merge_document doc g) g writes.

Definition ingest (split_text : Language → string → list string)
    (documents : list Document) (g : Graph) : Graph :=
  merge_same_language (apply_writes (chunk_writes split_text documents) g).

(** The node list after a sequence of writes. *)
Definition write_nodes (writes : list Document) (ns : list Node) : list Node :=
  foldl (λ ns doc,
           merge_chunk_nodes (chunk_name doc) (page_content doc) (chunk_language doc) ns)
        ns writes.

(** What a sequence of writes does to one node that already exists. *)
Definition rewrite_node (writes : list Document) (x : Node) : Node :=
  foldl (λ x doc, set_props (chunk_name doc) (page_content doc) (chunk_language doc) x)
        x writes.

(** The last chunk of a given name in a list of chunks. *)
Definition last_chunk_named (n : string) (chunks : list Document) : option Document :=
  last (filter (λ doc, chunk_name doc = n) chunks).

(** A second pass creates a relationship the first pass had not left in
    the store. *)
Definition adds_edges_on_rerun (pass : World → World) (w : World) : Prop :=
  edges (graph (pass (pass w))) ≠ edges (graph (pass w)).

(** How many directory loads the trace shows before the first prompt for
    a question; [None] when no question is ever asked. *)
Fixpoint loads_before_input (tr : list Event) : option nat :=
  match tr with
  | [] => None
  | EvInput _ :: _ => Some 0
  | EvLoad _ :: tr' => S <$> loads_before_input tr'
  | EvPrint _ :: tr' => loads_before_input tr'
  end.

(** ** A sample environment

    Concrete stand-ins for the external services, used to run the
    script on small inputs. *)

(** Cuts a text every [size] characters: the hard length cut a
    splitter falls back to on a text without separators. *)
Fixpoint chunks_of (size room : nat) (cur text : string) : list string :=
  match text with
  | EmptyString => if String.eqb cur "" then [] else [cur]
  | String c rest =>
      match room with
      | O => cur :: chunks_of size (pred size) (String c EmptyString) rest
      | S room' => chunks_of size room' (cur +:+ String c EmptyString) rest
      end
  end.

Definition fixed_width_split_text (_ : Language) (text : string) : list string :=
  chunks_of 1000 1000 "" text.


(** A document as the loader yields it for a file of a known language. *)
Definition file_document (source lang text : string) : Document :=
  mkDocument text (<["source" := source]> (<["language" := lang]> ∅)).

Definition sample_documents : list Document :=
  [ file_document "/repo/a.py" "python" "print('a')";
    file_document "/repo/c.py" "python" "print('c')";
    file_document "/repo/b.go" "go" "package main" ].

Definition sample_loader (_ : string) : result (list Document) := Ok sample_documents.

(** Two files of the same basename in different directories. *)
Definition util_document_a : Document :=
  file_document "/repo/pkg/util.py" "python" "def parse(): pass".
Definition util_document_b : Document :=
  file_document "/repo/tools/util.py" "python" "def render(): pass".


Definition sample_schema_of (g : Graph) : string :=
  match nodes g with
  | [] => ""
  | _ => "Node properties: CodeChunk {name: STRING, content: STRING, language: STRING}"
  end.

(** Python's [repr] without escaping. *)
Fixpoint plain_repr (v : pyval) : string :=
  match v with
  | PyNone => "None"
  | PyBool b => if b then "True" else "False"
  | PyInt z => pretty z
  | PyStr s => "'" +:+ s +:+ "'"
  | PyList xs => "[" +:+ String.concat ", " (map plain_repr xs) +:+ "]"
  | PyDict kvs =>
      "{" +:+ String.concat ", "
                (map (λ kv, "'" +:+ fst kv +:+ "': " +:+ plain_repr (snd kv)) kvs)
          +:+ "}"
  end.

Definition enum_str (lang : Language) : string :=
  match lang with
  | PYTHON => "Language.PYTHON"
  | JS => "Language.JS"
  | GO => "Language.GO"
  | HTML => "Language.HTML"
  | MARKDOWN => "Language.MARKDOWN"
  end.

(** A response in the shape [answer_query] reads, reporting the
    generated query and the rows it returned. *)
Definition response_with_rows (cypher : string) (rows : list pyval) : pyval :=
  PyDict [("intermediate_steps",
           PyList [PyDict [("query", PyStr cypher); ("result", PyList rows)]])].

Definition go_row : pyval := PyDict [("c.content", PyStr "package main")].
Definition py_row : pyval := PyDict [("c.content", PyStr "print('a')")].

Definition sample_chain : Chain := λ question,
  if String.eqb question "show me the Go code" then
    Ok (response_with_rows
          "MATCH (c:CodeChunk) WHERE c.language = 'go' RETURN c.content"
          [go_row; py_row])
  else if String.eqb question "show me the Rust code" then
    Ok (response_with_rows
          "MATCH (c:CodeChunk) WHERE c.language = 'rust' RETURN c.content" [])
  else Raise (Exception "ServiceUnavailable" "Couldn't connect to localhost:7687").

Definition sample_chain_from_llm (_ : Graph) : result Chain := Ok sample_chain.

Definition empty_graph : Graph := mkGraph [] ∅.
Definition fresh_world : World := mkWorld empty_graph "" [].

Definition sample_load (directory_path : string) : M unit :=
  load_source_code_to_graph fixed_width_split_text sample_loader sample_schema_of
    plain_repr enum_str directory_path.

Definition sample_pass (w : World) : World := (sample_load directory_path w).1.

Definition sample_app (stdin : list string) : M unit :=
  app fixed_width_split_text sample_loader sample_schema_of plain_repr enum_str
    sample_chain_from_llm stdin.


(** ** Further notions used to state properties of the script *)

(** The shape every relationship the script creates has: it joins two
    distinct positions of the node list and comes with its reverse. *)
Definition edges_wf (g : Graph) : Prop :=
  ∀ i j, (i, j) ∈ edges g →
    i ≠ j ∧ i < length (nodes g) ∧ j < length (nodes g) ∧ (j, i) ∈ edges g.

(** Two positions the relationship statement matches: distinct nodes
    with the same language value. *)
Definition linkable (ns : list Node) (i j : nat) : Prop :=
  ∃ a b, ns !! i = Some a ∧ ns !! j = Some b ∧ i ≠ j ∧ language a = language b.

Definition is_print (e : Event) : bool :=
  match e with EvPrint _ => true | _ => false end.

(** A computation whose only events are printed lines. *)
Definition prints_only {A} (m : M A) : Prop :=
  ∀ w, ∃ lines, trace (m w).1 = trace w ++ (EvPrint <$> lines).

(** How often the question loop prompts on a given input: once for every
    line up to and including the first exit line, and once more at the
    end of input when there is no exit line. *)
Fixpoint prompts_shown (stdin : list string) : nat :=
  match stdin with
  | [] => 1
  | line :: stdin' => if is_exit line then 1 else S (prompts_shown stdin')
  end.

(** A path component: a string without a slash. *)
Fixpoint no_sep (s : string) : bool :=
  match s with
  | EmptyString => true
  | String c r => negb (Ascii.eqb c "/"%char) && no_sep r
  end.

(** The exception [setup_qa_chain] raises on an empty schema. *)
Definition empty_schema_error : exn :=
  ValueError "Graph schema is empty. Make sure data has been loaded into the graph.".

(** Services that fail, for the sample environment. *)
Definition missing_directory_loader (_ : string) : result (list Document) :=
  Raise (Exception "FileNotFoundError" "No such file or directory").

Definition empty_schema_of (_ : Graph) : string := "".

Definition failing_chain_from_llm (_ : Graph) : result Chain :=
  Raise (Exception "OpenAIError" "The api_key client option must be set").

Definition empty_directory_loader (_ : string) : result (list Document) := Ok [].

(** Chains whose responses [answer_query] cannot use as a query result. *)
Definition stepless_chain : Chain := λ _,
  Ok (PyDict [("intermediate_steps", PyList [])]).
Definition plain_text_chain : Chain := λ _, Ok (PyStr "I don't know the answer.").

(** A store holding one node from an earlier run. *)
Definition used_world : World :=
  mkWorld (mkGraph [mkNode "old.txt" "kept" "text"] ∅) "" [].

(** A document the loader yields without a detected language and
    without a name. *)
Definition readme_document : Document :=
  mkDocument "# Title" (<["source" := "/repo/docs/NOTES.md"]> ∅).

(** ** The earlier draft of the script, [src/Untitled-1.py] *)

Module Draft.
Section Script.

(** [RecursiveCharacterTextSplitter.from_language(language=[...],
    chunk_size=1000, chunk_overlap=0)] called with the list of the five
    languages (lines 38-46): the [split_text] of the splitter it
    builds, or the exception the call raises. *)
Variable text_splitter : result (string → list string).

(** [GenericLoader.from_filesystem(directory_path, glob="*", ...).load()]
    with the arguments of lines 28-33. *)
Variable loader_load : string → result (list Document).

Variable schema_of : Graph → string.
Variable py_repr : pyval → string.

(** [ChatOpenAI(...)] followed by [GraphCypherQAChain.from_llm(...)] with
    the arguments of lines 89-101. The chain is seen through
    [chain.invoke({"query": query})]. *)
Variable chain_from_llm : Graph → result Chain.

(** [text_splitter.split_documents(documents)] *)
Definition split_documents (split_text : string → list string)
    (documents : list Document) : list Document :=
  doc ← documents;
  (λ text, mkDocument text (metadata doc)) <$> split_text (page_content doc).

(** Lines 25-74. The documents keep the metadata the loader gave them:
    no name is assigned here. *)
Definition load_source_code_to_graph (directory_path : string) : M unit :=
  try_except
    (emit (EvLoad directory_path) ;;;
     documents <- lift_result (loader_load directory_path) ;;
     print ("Loaded documents: "
              +:+ py_repr (PyList ((λ doc, PyStr (chunk_name doc)) <$> documents))) ;;;
     split_text <- lift_result text_splitter ;;
     let split_docs := split_documents split_text documents in
     print ("Split documents: "
              +:+ py_repr (PyInt (Z.of_nat (length split_docs))) +:+ " chunks") ;;;
     for_each split_docs (λ doc, graph_update (merge_document doc)) ;;;
     graph_update merge_same_language ;;;
     refresh_schema schema_of ;;;
     schema <- get_schema ;;
     print ("Graph schema updated: " +:+ schema))
    (λ e,
       print ("Error loading source code: " +:+ exn_msg e) ;;;
       raise e).

(** Lines 81-109: on failure the error is printed and [None] returned. *)
Definition setup_qa_chain : M (option Chain) :=
  try_except
    (refresh_schema schema_of ;;;
     schema <- get_schema ;;
     if String.eqb schema "" then
       raise (ValueError
         "Graph schema is empty. Make sure data has been loaded into the graph.")
     else
       g <- get_graph ;;
       chain <- lift_result (chain_from_llm g) ;;
       print "QA Chain setup successfully." ;;;
       ret (Some chain))
    (λ e,
       print ("Error setting up QA Chain: " +:+ exn_msg e) ;;;
       ret None).

(** Lines 112-114: [chain.invoke({"query": query})['result']]. *)
Definition answer_query (chain : option Chain) (query : string) : M pyval :=
  match chain with
  | None =>
      raise (AttributeError "'NoneType' object has no attribute 'invoke'")
  | Some chain =>
      response <- lift_result (chain query) ;;
      lift_result (py_getitem response "result")
  end.

(** The loop of lines 129-135. *)
Fixpoint question_loop (qa_chain : option Chain) (stdin : list string) : M unit :=
  emit (EvInput prompt) ;;;
  match stdin with
  | [] => raise (EOFError "EOF when reading a line")
  | user_query :: stdin' =>
      if is_exit user_query then ret tt
      else
        answer <- answer_query qa_chain user_query ;;
        print ("Answer: " +:+ py_str py_repr answer) ;;;
        print "" ;;;
        question_loop qa_chain stdin'
  end.

(** Lines 117-135. *)
Definition main (stdin : list string) : M unit :=
  print ("Loading source code from: " +:+ directory_path) ;;;
  load_source_code_to_graph directory_path ;;;
  qa_chain <- setup_qa_chain ;;
  question_loop qa_chain stdin.

(** The module body: the call of line 78, then the call of [main] at
    line 138. *)
Definition script (stdin : list string) : M unit :=
  load_source_code_to_graph directory_path ;;;
  main stdin.

End Script.
End Draft.

Definition sample_text_splitter : result (string → list string) :=
  Ok (fixed_width_split_text PYTHON).

Definition unsupported_language_list : result (string → list string) :=
  Raise (Exception "ValueError" "Language is not supported!").

Definition sample_draft_main (stdin : list string) : M unit :=
  Draft.main sample_text_splitter sample_loader sample_schema_of
    plain_repr sample_chain_from_llm stdin.

(** * Properties *)

(** ** Node store lemmas *)

Lemma set_props_name n c l x : name (set_props n c l x) = name x.
Proof. unfold set_props. by destruct (has_name n x). Qed.

Lemma has_name_true n x : has_name n x = true ↔ name x = n.
Proof. unfold has_name. by rewrite bool_decide_eq_true. Qed.

Lemma existsb_has_name n (ns : list Node) :
  existsb (has_name n) ns = true ↔ n ∈ name <$> ns.
Proof.
  rewrite existsb_exists, list_elem_of_fmap. setoid_rewrite has_name_true.
  setoid_rewrite <- list_elem_of_In.
  split; intros (x & H1 & H2); exists x; by split.
Qed.

Lemma merge_chunk_nodes_present n c l (ns : list Node) :
  n ∈ name <$> ns → merge_chunk_nodes n c l ns = set_props n c l <$> ns.
Proof.
  intros H. unfold merge_chunk_nodes.
  by apply existsb_has_name in H as ->.
Qed.

Lemma merge_chunk_nodes_absent n c l (ns : list Node) :
  n ∉ name <$> ns → merge_chunk_nodes n c l ns = ns ++ [mkNode n c l].
Proof.
  intros H. unfold merge_chunk_nodes.
  destruct (existsb (has_name n) ns) eqn:E; [|done].
  by apply existsb_has_name in E.
Qed.

Lemma set_props_absent n c l (ns : list Node) :
  n ∉ name <$> ns → set_props n c l <$> ns = ns.
Proof.
  induction ns as [|x ns IH]; [done|]. rewrite fmap_cons, not_elem_of_cons.
  intros [Hx Hns]. cbn. rewrite IH by done. f_equal.
  unfold set_props. destruct (has_name n x) eqn:E; [|done].
  apply has_name_true in E. congruence.
Qed.

Lemma names_merge_chunk_nodes n c l (ns : list Node) :
  name <$> merge_chunk_nodes n c l ns =
  if bool_decide (n ∈ name <$> ns) then name <$> ns else (name <$> ns) ++ [n].
Proof.
  case_bool_decide as H.
  - rewrite merge_chunk_nodes_present by done.
    rewrite <- list_fmap_compose. apply list_fmap_ext. intros ? x _. apply set_props_name.
  - rewrite merge_chunk_nodes_absent by done. by rewrite fmap_app.
Qed.

Lemma name_in_merge_chunk_nodes n c l (ns : list Node) :
  n ∈ name <$> merge_chunk_nodes n c l ns.
Proof.
  rewrite names_merge_chunk_nodes. case_bool_decide; [done|].
  apply elem_of_app. right. by apply list_elem_of_singleton.
Qed.

Lemma names_merge_chunk_nodes_mono m n c l (ns : list Node) :
  m ∈ name <$> ns → m ∈ name <$> merge_chunk_nodes n c l ns.
Proof.
  rewrite names_merge_chunk_nodes. case_bool_decide; [done|].
  intros Hm. apply elem_of_app. by left.
Qed.

Lemma NoDup_names_merge_chunk_nodes n c l (ns : list Node) :
  NoDup (name <$> ns) → NoDup (name <$> merge_chunk_nodes n c l ns).
Proof.
  rewrite names_merge_chunk_nodes. case_bool_decide as H; [done|].
  intros Hnd. apply NoDup_app. split_and!; [done| |apply NoDup_singleton].
  intros x Hx ->%list_elem_of_singleton. done.
Qed.

(** A second write under the same name shadows the first entirely. *)
Lemma merge_chunk_nodes_shadow n c1 l1 c2 l2 (ns : list Node) :
  merge_chunk_nodes n c2 l2 (merge_chunk_nodes n c1 l1 ns)
  = merge_chunk_nodes n c2 l2 ns.
Proof.
  rewrite (merge_chunk_nodes_present n c2 l2 (merge_chunk_nodes _ _ _ _))
    by apply name_in_merge_chunk_nodes.
  destruct (decide (n ∈ name <$> ns)) as [Hin|Hout].
  - rewrite !merge_chunk_nodes_present by done.
    rewrite <- list_fmap_compose. apply list_fmap_ext. intros _ x _. cbn.
    unfold set_props. destruct (has_name n x) eqn:E; cbn.
    + unfold has_name in *. cbn. by rewrite E.
    + by rewrite E.
  - rewrite !merge_chunk_nodes_absent by done.
    rewrite fmap_app, set_props_absent by done. cbn.
    unfold set_props, has_name. cbn. by rewrite bool_decide_eq_true_2.
Qed.

Lemma filter_name_absent n (ns : list Node) :
  n ∉ name <$> ns → filter (λ x, name x = n) ns = [].
Proof.
  induction ns as [|x ns IH]; [done|]. rewrite fmap_cons, not_elem_of_cons.
  intros [Hx Hns]. rewrite filter_cons_False by done. auto.
Qed.

Lemma filter_name_set_props n c l (ns : list Node) :
  NoDup (name <$> ns) → n ∈ name <$> ns →
  filter (λ x, name x = n) (set_props n c l <$> ns) = [mkNode n c l].
Proof.
  induction ns as [|x ns IH]; [by intros _ ?%elem_of_nil|].
  rewrite !fmap_cons, NoDup_cons, elem_of_cons. intros [Hx Hnd] Hin.
  destruct (decide (name x = n)) as [<-|Hne].
  - rewrite set_props_absent by done.
    unfold set_props, has_name. rewrite bool_decide_eq_true_2 by done.
    rewrite filter_cons_True by done. by rewrite filter_name_absent.
  - destruct Hin as [|Hin]; [congruence|].
    unfold set_props at 1, has_name. rewrite bool_decide_eq_false_2 by done.
    rewrite filter_cons_False by done. auto.
Qed.

(** After a write there is exactly one node of that name, and it holds
    what was written. *)
Lemma filter_name_merge_chunk_nodes n c l (ns : list Node) :
  NoDup (name <$> ns) →
  filter (λ x, name x = n) (merge_chunk_nodes n c l ns) = [mkNode n c l].
Proof.
  intros Hnd. destruct (decide (n ∈ name <$> ns)) as [Hin|Hout].
  - rewrite merge_chunk_nodes_present by done. by apply filter_name_set_props.
  - rewrite merge_chunk_nodes_absent by done.
    rewrite filter_app, filter_name_absent by done.
    by rewrite filter_cons_True.
Qed.

(** Nodes of other names are not touched by a write. *)
Lemma filter_other_merge_chunk_nodes m n c l (ns : list Node) :
  m ≠ n →
  filter (λ x, name x = m) (merge_chunk_nodes n c l ns) = filter (λ x, name x = m) ns.
Proof.
  intros Hne. unfold merge_chunk_nodes. destruct (existsb _ _).
  - induction ns as [|x ns IH]; [done|]. rewrite fmap_cons.
    unfold set_props at 1, has_name. case_bool_decide as E.
    + rewrite !filter_cons_False by (cbn; congruence). done.
    + destruct (decide (name x = m)).
      * rewrite !filter_cons_True by done. by f_equal.
      * rewrite !filter_cons_False by done. done.
  - rewrite filter_app, (filter_cons_False _ (mkNode n c l)) by (cbn; congruence).
    by rewrite filter_nil, app_nil_r.
Qed.

Lemma elem_of_merge_chunk_nodes x n c l (ns : list Node) :
  x ∈ merge_chunk_nodes n c l ns →
  x = mkNode n c l ∨ (name x ≠ n ∧ x ∈ ns).
Proof.
  unfold merge_chunk_nodes. destruct (existsb _ _) eqn:E.
  - intros (y & -> & Hy)%list_elem_of_fmap. unfold set_props, has_name.
    case_bool_decide as Hn; [left; by rewrite Hn | by right].
  - intros [Hx | ->%list_elem_of_singleton]%elem_of_app; [|by left].
    right. split; [|done]. intros <-.
    assert (existsb (has_name (name x)) ns = true) as E'; [|congruence].
    apply existsb_has_name, list_elem_of_fmap. eauto.
Qed.

Lemma nodes_apply_writes ws g :
  nodes (apply_writes ws g) = write_nodes ws (nodes g).
Proof.
  unfold apply_writes, write_nodes. revert g.
  induction ws as [|d ws IH]; intros g; [done|]. cbn. by rewrite IH.
Qed.

Lemma edges_apply_writes ws g : edges (apply_writes ws g) = edges g.
Proof.
  unfold apply_writes, write_nodes. revert g.
  induction ws as [|d ws IH]; intros g; [done|]. cbn. by rewrite IH.
Qed.

Lemma write_nodes_cons d ws ns :
  write_nodes (d :: ws) ns
  = write_nodes ws
      (merge_chunk_nodes (chunk_name d) (page_content d) (chunk_language d) ns).
Proof. done. Qed.

Lemma rewrite_node_cons d ws x :
  rewrite_node (d :: ws) x
  = rewrite_node ws (set_props (chunk_name d) (page_content d) (chunk_language d) x).
Proof. done. Qed.

Lemma write_nodes_snoc ws d ns :
  write_nodes (ws ++ [d]) ns
  = merge_chunk_nodes (chunk_name d) (page_content d) (chunk_language d)
      (write_nodes ws ns).
Proof. unfold write_nodes. by rewrite foldl_app. Qed.

Lemma rewrite_node_snoc ws d x :
  rewrite_node (ws ++ [d]) x
  = set_props (chunk_name d) (page_content d) (chunk_language d) (rewrite_node ws x).
Proof. unfold rewrite_node. by rewrite foldl_app. Qed.

Lemma rewrite_node_name ws x : name (rewrite_node ws x) = name x.
Proof.
  revert x. induction ws as [|d ws IH]; intros x; [done|].
  by rewrite rewrite_node_cons, IH, set_props_name.
Qed.

Lemma set_props_same_name n c l x : name x = n → set_props n c l x = mkNode n c l.
Proof.
  intros <-. unfold set_props, has_name. by rewrite bool_decide_eq_true_2.
Qed.

Lemma set_props_other_name n c l x : name x ≠ n → set_props n c l x = x.
Proof.
  intros H. unfold set_props, has_name. by rewrite bool_decide_eq_false_2.
Qed.

Lemma names_write_nodes_mono m ws (ns : list Node) :
  m ∈ name <$> ns → m ∈ name <$> write_nodes ws ns.
Proof.
  revert ns. induction ws as [|d ws IH]; intros ns H; [done|].
  rewrite write_nodes_cons. by apply IH, names_merge_chunk_nodes_mono.
Qed.

(** Every name written is the name of a node afterwards. *)
Lemma names_written ws (ns : list Node) d :
  d ∈ ws → chunk_name d ∈ name <$> write_nodes ws ns.
Proof.
  revert ns. induction ws as [|d' ws IH]; intros ns; [by intros ?%elem_of_nil|].
  rewrite write_nodes_cons. intros [->|Hin]%elem_of_cons; [|by apply IH].
  apply names_write_nodes_mono, name_in_merge_chunk_nodes.
Qed.

(** Writes whose names all exist already create nothing: they rewrite
    the nodes in place. *)
Lemma write_nodes_in_place ws (ns : list Node) :
  (∀ d, d ∈ ws → chunk_name d ∈ name <$> ns) →
  write_nodes ws ns = rewrite_node ws <$> ns.
Proof.
  revert ns. induction ws as [|d ws IH]; intros ns Hall.
  - by rewrite list_fmap_id.
  - rewrite write_nodes_cons, merge_chunk_nodes_present by (apply Hall; left).
    rewrite IH.
    + by rewrite <- list_fmap_compose.
    + intros d' Hd'. rewrite <- list_fmap_compose.
      erewrite list_fmap_ext; [apply Hall; by right|].
      intros _ x _. cbn. apply set_props_name.
Qed.

(** A node of the store after the writes is a fixed point of them. *)
Lemma rewrite_node_fixed ws (ns : list Node) x :
  x ∈ write_nodes ws ns → rewrite_node ws x = x.
Proof.
  revert x. induction ws as [|d ws IH] using rev_ind; intros x; [done|].
  rewrite write_nodes_snoc, rewrite_node_snoc.
  intros [->|[Hne Hx]]%elem_of_merge_chunk_nodes.
  - apply set_props_same_name. by rewrite rewrite_node_name.
  - rewrite IH by done. by apply set_props_other_name.
Qed.

(** Repeating a sequence of writes changes no node. *)
Lemma write_nodes_idemp ws (ns : list Node) :
  write_nodes ws (write_nodes ws ns) = write_nodes ws ns.
Proof.
  rewrite write_nodes_in_place by (intros d Hd; by apply names_written).
  rewrite <- (list_fmap_id (write_nodes ws ns)) at 2.
  apply list_fmap_ext. intros _ x Hx%list_elem_of_lookup_2. cbn.
  by eapply rewrite_node_fixed.
Qed.

Lemma last_chunk_named_snoc n ws d :
  last_chunk_named n (ws ++ [d])
  = if decide (chunk_name d = n) then Some d else last_chunk_named n ws.
Proof.
  unfold last_chunk_named. rewrite filter_app. case_decide as H.
  - rewrite filter_cons_True by done. rewrite filter_nil. by rewrite last_snoc.
  - rewrite filter_cons_False by done. by rewrite filter_nil, app_nil_r.
Qed.

(** Last writer wins: a node whose name was written holds the content
    and language of the last write under that name. *)
Lemma write_nodes_last_write ws (ns : list Node) x d :
  x ∈ write_nodes ws ns → last_chunk_named (name x) ws = Some d →
  content x = page_content d ∧ language x = chunk_language d.
Proof.
  revert x. induction ws as [|d' ws IH] using rev_ind; intros x; [done|].
  rewrite write_nodes_snoc, last_chunk_named_snoc.
  intros [->|[Hne Hx]]%elem_of_merge_chunk_nodes; cbn.
  - rewrite decide_True by done. by intros [= <-].
  - rewrite decide_False by done. by apply IH.
Qed.

Lemma last_chunk_named_app n ws1 ws2 d :
  last_chunk_named n ws2 = Some d → last_chunk_named n (ws1 ++ ws2) = Some d.
Proof.
  unfold last_chunk_named. rewrite filter_app.
  destruct (filter _ ws2) as [|y l] using rev_ind; [done|].
  rewrite app_assoc, !last_snoc. done.
Qed.


(** ** Traces only grow *)

Lemma appends_ret {A} (a : A) : appends (ret a).
Proof. intros w. exists []. by rewrite app_nil_r. Qed.

Lemma appends_raise {A} e : appends (raise (A:=A) e).
Proof. intros w. exists []. by rewrite app_nil_r. Qed.

Lemma appends_lift_result {A} (r : result A) : appends (lift_result r).
Proof. intros w. exists []. by rewrite app_nil_r. Qed.

Lemma appends_emit e : appends (emit e).
Proof. intros w. by exists [e]. Qed.

Lemma appends_print line : appends (print line).
Proof. apply appends_emit. Qed.

Lemma appends_bind {A B} (m : M A) (k : A → M B) :
  appends m → (∀ a, appends (k a)) → appends (bind m k).
Proof.
  intros Hm Hk w. unfold bind. destruct (Hm w) as [tr1 H1].
  destruct (m w) as [w1 [a|e]]; cbn in *.
  - destruct (Hk a w1) as [tr2 H2]. exists (tr1 ++ tr2).
    by rewrite H2, H1, app_assoc.
  - by exists tr1.
Qed.

Lemma appends_try_except {A} (body : M A) handler :
  appends body → (∀ e, appends (handler e)) → appends (try_except body handler).
Proof.
  intros Hm Hk w. unfold try_except. destruct (Hm w) as [tr1 H1].
  destruct (body w) as [w1 [a|e]]; cbn in *.
  - by exists tr1.
  - destruct (Hk e w1) as [tr2 H2]. exists (tr1 ++ tr2).
    by rewrite H2, H1, app_assoc.
Qed.

Create HintDb appends.
#[local] Hint Resolve appends_ret appends_raise appends_lift_result appends_emit
  appends_print : appends.

Ltac appends_step :=
  first [ apply appends_bind; [|intros]
        | apply appends_try_except; [|intros]
        | solve [auto with appends]
        | case_match ].

(** ** Running the script *)

Lemma world_eta w : mkWorld (graph w) (schema w) (trace w) = w.
Proof. by destruct w. Qed.

Lemma for_each_graph_update {A} (f : A → Graph → Graph) xs w :
  for_each xs (λ x, graph_update (f x)) w
  = (mkWorld (foldl (λ g x, f x g) (graph w) xs) (schema w) (trace w), Ok tt).
Proof.
  revert w. induction xs as [|x xs IH]; intros w; cbn.
  - unfold ret. by rewrite world_eta.
  - unfold bind, graph_update. cbn. by rewrite IH.
Qed.

Lemma loads_before_input_prints lines tr :
  loads_before_input ((EvPrint <$> lines) ++ tr) = loads_before_input tr.
Proof. induction lines as [|l lines IH]; [done|]. by cbn. Qed.

Lemma loads_before_input_load d tr :
  loads_before_input (EvLoad d :: tr) = S <$> loads_before_input tr.
Proof. done. Qed.

Lemma loads_before_input_print line tr :
  loads_before_input (EvPrint line :: tr) = loads_before_input tr.
Proof. done. Qed.

Section Properties.

Variable split_text : Language → string → list string.
Variable loader_load : string → result (list Document).
Variable schema_of : Graph → string.
Variable py_repr : pyval → string.
Variable lang_str : Language → string.
Variable chain_from_llm : Graph → result Chain.

Local Abbreviation load :=
  (load_source_code_to_graph split_text loader_load schema_of py_repr lang_str).
Local Abbreviation split_docs := (split_documents split_text).
Local Abbreviation answer := (answer_query py_repr).
Local Abbreviation loop := (question_loop py_repr).
Local Abbreviation run_main :=
  (main split_text loader_load schema_of py_repr lang_str chain_from_llm).
Local Abbreviation run_app :=
  (app split_text loader_load schema_of py_repr lang_str chain_from_llm).

(** The loop over the splitters (lines 55-74), for any list of
    languages: the store receives the chunks of each pass in order. *)
Lemma splitter_loop_run (langs : list Language) documents w :
  for_each langs (λ lang,
    print ("Split documents for " +:+ lang_str lang +:+ ": "
             +:+ py_repr (PyInt (Z.of_nat (length (split_docs lang documents))))
             +:+ " chunks") ;;;
    for_each (split_docs lang documents) (λ doc, graph_update (merge_document doc))) w
  = (mkWorld
       (apply_writes (lang ← langs; split_docs lang documents) (graph w))
       (schema w)
       (trace w ++ ((λ lang, EvPrint ("Split documents for " +:+ lang_str lang +:+ ": "
             +:+ py_repr (PyInt (Z.of_nat (length (split_docs lang documents))))
             +:+ " chunks")) <$> langs)),
     Ok tt).
Proof.
  revert w. induction langs as [|lang langs IH]; intros w.
  - cbn. unfold ret. by rewrite app_nil_r, world_eta.
  - cbn [for_each]. unfold bind at 1. unfold bind at 1. cbn [print emit].
    rewrite for_each_graph_update. cbn [graph schema trace].
    rewrite IH. cbn [graph schema trace]. f_equal. f_equal.
    + unfold apply_writes. by rewrite bind_cons, foldl_app.
    + by rewrite fmap_cons, <- app_assoc.
Qed.

(** A pass whose load succeeds: the store becomes [ingest] of the
    documents, the schema is refreshed, and the trace grows by the
    load followed by printed lines only. *)
Lemma load_run_ok directory documents w :
  loader_load directory = Ok documents →
  ∃ lines,
    load directory w
    = (mkWorld (ingest split_text documents (graph w))
         (schema_of (ingest split_text documents (graph w)))
         (trace w ++ EvLoad directory :: (EvPrint <$> lines)),
       Ok tt).
Proof.
  intros Hload. unfold load_source_code_to_graph, try_except.
  unfold bind at 1. unfold load_documents, bind at 1. cbn [emit].
  unfold lift_result. rewrite Hload.
  unfold bind at 1. cbn [print emit graph schema trace].
  unfold bind at 1. rewrite splitter_loop_run. cbn [graph schema trace].
  unfold bind, graph_update, refresh_schema, get_schema, print, emit.
  cbn [graph schema trace].
  eexists (_ :: ((λ lang, _) <$> languages) ++ [_]).
  f_equal. f_equal. rewrite <- !app_assoc. cbn [app]. by f_equal.
Qed.

(** A pass whose load fails leaves the store as it was and re-raises. *)
Lemma load_run_raise directory e w :
  loader_load directory = Raise e →
  load directory w
  = (mkWorld (graph w) (schema w)
       (trace w ++ [EvLoad directory]
                ++ [EvPrint ("Error loading source code: " +:+ exn_msg e)]),
     Raise e).
Proof.
  intros Hload. unfold load_source_code_to_graph, try_except.
  unfold bind at 1. unfold load_documents, bind at 1. cbn [emit].
  unfold lift_result. rewrite Hload. cbn.
  by rewrite <- app_assoc.
Qed.

Lemma NoDup_names_write_nodes ws (ns : list Node) :
  NoDup (name <$> ns) → NoDup (name <$> write_nodes ws ns).
Proof.
  revert ns. induction ws as [|d ws IH]; intros ns H; [done|].
  rewrite write_nodes_cons. by apply IH, NoDup_names_merge_chunk_nodes.
Qed.

Lemma nodes_ingest documents g :
  nodes (ingest split_text documents g)
  = write_nodes (chunk_writes split_text documents) (nodes g).
Proof. unfold ingest, merge_same_language. cbn [nodes]. apply nodes_apply_writes. Qed.

Lemma edges_ingest documents g :
  edges (ingest split_text documents g)
  = edges g ∪ list_to_set (same_language_pairs (nodes (ingest split_text documents g))).
Proof.
  unfold ingest, merge_same_language. cbn [nodes edges].
  by rewrite edges_apply_writes.
Qed.

(** ** Ingestion: node identity and re-runs *)

(** C1. The node key is the chunk's name alone. After any sequence of
    chunk writes into a store whose names are distinct, there is
    exactly one node of a written name; it holds the content and
    language of the last chunk written under that name, and names
    stay distinct. A write shadows an earlier write of the same name
    entirely: the store is the one the later write alone would have
    produced, so nothing of the earlier content is merged in. *)
Theorem name_is_sole_node_key (g : Graph) (writes : list Document)
    (doc : Document) :
  NoDup (name <$> nodes g) →
  last_chunk_named (chunk_name doc) writes = Some doc →
  let g' := apply_writes writes g in
  filter (λ x, name x = chunk_name doc) (nodes g')
    = [mkNode (chunk_name doc) (page_content doc) (chunk_language doc)]
  ∧ NoDup (name <$> nodes g')
  ∧ ∀ earlier, chunk_name earlier = chunk_name doc →
      merge_document doc (merge_document earlier g) = merge_document doc g.
Proof.
  intros Hnd Hlast g'. subst g'. rewrite nodes_apply_writes. split_and!.
  - revert Hlast. induction writes as [|d ws IH] using rev_ind; [done|].
    rewrite last_chunk_named_snoc, write_nodes_snoc. case_decide as Hd.
    + intros [= ->]. by apply filter_name_merge_chunk_nodes, NoDup_names_write_nodes.
    + intros Hlast. rewrite filter_other_merge_chunk_nodes by done. by apply IH.
  - by apply NoDup_names_write_nodes.
  - intros earlier Hname. unfold merge_document, merge_chunk. cbn [nodes edges].
    by rewrite Hname, merge_chunk_nodes_shadow.
Qed.

(** C2 (amended). Running the pass a second time over the same
    directory changes neither the nodes nor the relationships: the
    relationship set after the second run equals the set after the
    first, and no run removes a relationship the store already had. *)
Theorem rerun_changes_nothing (directory : string) (w : World) :
  let w1 := (load directory w).1 in
  let w2 := (load directory w1).1 in
  nodes (graph w2) = nodes (graph w1)
  ∧ edges (graph w2) = edges (graph w1)
  ∧ edges (graph w) ⊆ edges (graph w1).
Proof.
  intros w1 w2. subst w1 w2.
  destruct (loader_load directory) as [documents|e] eqn:Hload.
  - destruct (load_run_ok directory documents w Hload) as [l1 ->]. cbn [fst].
    match goal with |- context [load_source_code_to_graph _ _ _ _ _ _ ?w1] =>
      destruct (load_run_ok directory documents w1 Hload) as [l2 ->] end.
    cbn [fst graph].
    set (g1 := ingest split_text documents (graph w)).
    pose proof (edges_ingest documents (graph w)) as He. fold g1 in He.
    assert (nodes (ingest split_text documents g1) = nodes g1) as Hn.
    { unfold g1. rewrite !nodes_ingest. apply write_nodes_idemp. }
    split_and!; [done| |].
    + rewrite (edges_ingest documents g1), Hn, He.
      by rewrite <- (assoc_L (∪)), (idemp_L (∪)).
    + rewrite He. apply union_subseteq_l.
  - rewrite (load_run_raise directory e w Hload). cbn [fst].
    rewrite (load_run_raise directory e _ Hload). cbn [fst graph]. done.
Qed.


(** C4. One pass applies each of the five splitters, in the order
    Python, JS, Go, HTML, Markdown, to the whole document list and
    writes the chunks of each in turn. Hence every node whose name
    occurs among the chunks of the Markdown pass ends up with the
    content (and language tag) of the last Markdown-pass chunk of that
    name, whatever the language of the file. *)
Theorem markdown_pass_wins (directory : string) (documents : list Document)
    (w : World) :
  loader_load directory = Ok documents →
  let named := set_document_name <$> documents in
  let g' := graph (load directory w).1 in
  g' = merge_same_language
         (apply_writes
            (split_docs PYTHON named ++ split_docs JS named ++ split_docs GO named
               ++ split_docs HTML named ++ split_docs MARKDOWN named)
            (graph w))
  ∧ ∀ x chunk,
      x ∈ nodes g' →
      last_chunk_named (name x) (split_docs MARKDOWN named) = Some chunk →
      content x = page_content chunk ∧ language x = chunk_language chunk.
Proof.
  intros Hload named g'. subst g'.
  destruct (load_run_ok directory documents w Hload) as [lines ->].
  cbn [fst graph]. unfold ingest, chunk_writes. cbn [languages mbind list_bind].
  rewrite app_nil_r. fold named. split; [done|].
  intros x chunk Hx Hlast. cbn [merge_same_language nodes] in Hx.
  rewrite nodes_apply_writes in Hx.
  eapply write_nodes_last_write; [exact Hx|].
  rewrite !app_assoc. by apply last_chunk_named_app.
Qed.

(** ** Query answering *)

(** A response from which both steps can be read is a dictionary
    holding 'intermediate_steps'. *)
Lemma first_step_shape response key v :
  first_step response key = Ok v →
  is_dict response && dict_contains "intermediate_steps" response = true.
Proof.
  unfold first_step, py_getitem.
  destruct response as [| | | | |kvs]; try done. cbn.
  by destruct (dict_lookup "intermediate_steps" kvs).
Qed.

Lemma substring_length_le n s : String.length (String.substring 0 n s) ≤ n.
Proof.
  revert s. induction n as [|n IH]; intros [|c s]; cbn; try lia.
  specialize (IH s). lia.
Qed.

(** [answer_query] returns a string from every world: whatever is
    raised inside its [try] is turned into one by the handler. *)
Lemma answer_query_returns chain question w :
  ∃ text, (answer chain question w).2 = Ok text.
Proof.
  unfold answer_query, try_except.
  match goal with |- context [match ?body w with _ => _ end] =>
    destruct (body w) as [w' [text|e]] end; cbn; eauto.
Qed.



(** The loop ends normally at the first 'exit' line; without one it
    ends with the [EOFError] of [input()]. Nothing raised while a
    question is answered leaves it. *)
Lemma question_loop_result chain stdin w :
  (loop chain stdin w).2
  = if existsb is_exit stdin then Ok tt
    else Raise (EOFError "EOF when reading a line").
Proof.
  revert w. induction stdin as [|line stdin IH]; intros w; [done|].
  cbn [question_loop existsb].
  unfold bind at 1. cbn [emit].
  destruct (is_exit line); [done|]. cbn [orb].
  unfold bind at 1. unfold try_except at 1. unfold bind at 1.
  destruct (answer_query_returns chain line
     (mkWorld (graph w) (schema w) (trace w ++ [EvInput prompt]))) as [text Htext].
  destruct (answer _ _ _) as [w1 r]. cbn in Htext. subst r.
  cbn [print emit]. unfold bind at 1. cbn [print emit]. apply IH.
Qed.

Lemma main_returns stdin w : (run_main stdin w).2 = Ok tt.
Proof.
  unfold main. unfold bind at 1. unfold try_except at 1.
  match goal with |- context [match ?body w with _ => _ end] =>
    destruct (body w) as [w' [[]|e]] end; done.
Qed.

(** C9. An exception raised by the chain while a question is
    processed is caught in [answer_query] and comes back as the
    answer text; [answer_query] never raises; the loop can only end
    by 'exit' or by end of input, and [main] always returns. *)
Theorem question_errors_become_answers (chain : Chain) (question : string)
    (w : World) (e : exn) (stdin : list string) :
  chain question = Raise e →
  (answer chain question w).2
    = Ok ("An error occurred while processing your query: " +:+ exn_msg e)
  ∧ (∀ chain' question' w', ∃ text, (answer chain' question' w').2 = Ok text)
  ∧ (loop chain stdin w).2
    = (if existsb is_exit stdin then Ok tt
       else Raise (EOFError "EOF when reading a line"))
  ∧ (run_main stdin w).2 = Ok tt.
Proof.
  intros Hrun. split_and!.
  - unfold answer_query, try_except, bind, lift_result. by rewrite Hrun.
  - intros. apply answer_query_returns.
  - apply question_loop_result.
  - apply main_returns.
Qed.

(** ** The process as a whole *)

Lemma appends_answer_query chain question : appends (answer chain question).
Proof. unfold answer_query. repeat appends_step. Qed.

Lemma appends_question_loop chain stdin : appends (loop chain stdin).
Proof.
  induction stdin as [|line stdin IH]; cbn [question_loop].
  - repeat appends_step.
  - pose proof (appends_answer_query chain line). repeat appends_step.
Qed.

(** The loop's first event is the prompt. *)
Lemma question_loop_prompts_first chain stdin w :
  ∃ tr, trace (loop chain stdin w).1 = trace w ++ EvInput prompt :: tr.
Proof.
  assert (∀ rest : M unit, appends rest →
    ∃ tr, trace ((emit (EvInput prompt) ;;; rest) w).1
          = trace w ++ EvInput prompt :: tr) as Hfirst.
  { intros rest Hrest. unfold bind. cbn [emit].
    destruct (Hrest (mkWorld (graph w) (schema w) (trace w ++ [EvInput prompt])))
      as [tr Htr].
    exists tr. rewrite Htr. cbn. by rewrite <- app_assoc. }
  destruct stdin as [|line stdin]; cbn [question_loop]; apply Hfirst.
  - repeat appends_step.
  - pose proof (appends_answer_query chain line).
    pose proof (appends_question_loop chain stdin). repeat appends_step.
Qed.

Lemma setup_qa_chain_run_ok chain w :
  schema_of (graph w) ≠ "" →
  chain_from_llm (graph w) = Ok chain →
  setup_qa_chain schema_of chain_from_llm w
  = (mkWorld (graph w) (schema_of (graph w))
       (trace w ++ [EvPrint "QA Chain setup successfully."]),
     Ok chain).
Proof.
  intros Hschema%String.eqb_neq Hchain.
  unfold setup_qa_chain, try_except, bind, refresh_schema, get_schema, get_graph,
    lift_result. cbn. rewrite Hschema. cbn. by rewrite Hchain.
Qed.

(** C10 (as the code behaves). Run as a program with every service
    available, the file performs two ingestion passes before it
    prompts for the first question: the module-level call of line 93,
    then the call at the head of [main]. *)
Theorem app_ingests_twice_before_prompt (stdin : list string) (g : Graph)
    (s : string) (documents : list Document) (chain : Chain) :
  loader_load directory_path = Ok documents →
  let g2 := ingest split_text documents (ingest split_text documents g) in
  schema_of g2 ≠ "" →
  chain_from_llm g2 = Ok chain →
  loads_before_input (trace (run_app stdin (mkWorld g s [])).1) = Some 2.
Proof.
  intros Hload g2 Hschema Hchain.
  destruct (load_run_ok directory_path documents (mkWorld g s []) Hload) as [l1 E1].
  unfold app. unfold bind at 1. rewrite E1. cbn [graph schema trace app].
  unfold main. unfold bind at 1. unfold try_except at 1.
  unfold bind at 1. cbn [print emit graph schema trace].
  unfold bind at 1.
  match goal with |- context [load_source_code_to_graph _ _ _ _ _ ?d ?w] =>
    destruct (load_run_ok d documents w Hload) as [l2 E2]; rewrite E2 end.
  cbn [graph schema trace]. fold g2.
  unfold bind at 1. cbn [get_graph graph].
  unfold bind at 1. cbn [print emit graph schema trace].
  unfold bind at 1. rewrite setup_qa_chain_run_ok with (chain:=chain) by done.
  cbn [graph schema trace].
  match goal with |- context [question_loop _ _ _ ?w] =>
    destruct (question_loop_prompts_first chain stdin w) as [tr Htr];
    destruct (question_loop py_repr chain stdin w) as [w3 r] end.
  cbn [fst trace] in Htr.
  assert (∀ tr', loads_before_input (trace w3 ++ tr') = Some 2) as Hw3.
  { intros tr'. rewrite Htr, <- !app_assoc, app_nil_l, <- !app_comm_cons.
    rewrite loads_before_input_load, loads_before_input_prints, app_nil_l.
    rewrite loads_before_input_print, loads_before_input_load.
    rewrite loads_before_input_prints, app_nil_l.
    by rewrite !loads_before_input_print. }
  destruct r as [[]|e]; cbn [print emit fst trace graph schema];
    rewrite <- ?app_assoc; apply Hw3.
Qed.

End Properties.

(** * Further properties of the ingestion pass *)

Lemma lookup_merge_chunk_nodes n c l (ns : list Node) i x :
  ns !! i = Some x → merge_chunk_nodes n c l ns !! i = Some (set_props n c l x).
Proof.
  intros Hi. unfold merge_chunk_nodes. destruct (existsb _ _) eqn:E.
  - by rewrite list_lookup_fmap, Hi.
  - rewrite lookup_app_l by (by eapply lookup_lt_Some). rewrite Hi. f_equal.
    symmetry. apply set_props_other_name. intros Hn.
    assert (existsb (has_name n) ns = true) as E'; [|congruence].
    apply existsb_has_name, list_elem_of_fmap. exists x. split; [done|].
    by eapply list_elem_of_lookup_2.
Qed.

Lemma lookup_write_nodes ws (ns : list Node) i x :
  ns !! i = Some x → write_nodes ws ns !! i = Some (rewrite_node ws x).
Proof.
  revert ns x. induction ws as [|d ws IH]; intros ns x Hi; [done|].
  rewrite write_nodes_cons, rewrite_node_cons. by apply IH, lookup_merge_chunk_nodes.
Qed.

Lemma rewrite_node_untouched ws x :
  name x ∉ chunk_name <$> ws → rewrite_node ws x = x.
Proof.
  revert x. induction ws as [|d ws IH]; intros x; [done|].
  rewrite fmap_cons, not_elem_of_cons. intros [Hd Hws].
  rewrite rewrite_node_cons, set_props_other_name by done. by apply IH.
Qed.

Lemma length_merge_chunk_nodes n c l (ns : list Node) :
  length ns ≤ length (merge_chunk_nodes n c l ns) ≤ S (length ns).
Proof.
  unfold merge_chunk_nodes. destruct (existsb _ _).
  - rewrite length_fmap. lia.
  - rewrite length_app. cbn. lia.
Qed.

Lemma length_write_nodes ws (ns : list Node) :
  length ns ≤ length (write_nodes ws ns).
Proof.
  revert ns. induction ws as [|d ws IH]; intros ns; [done|].
  rewrite write_nodes_cons. etrans; [|apply IH].
  apply length_merge_chunk_nodes.
Qed.

Lemma elem_of_names_merge_chunk_nodes m n c l (ns : list Node) :
  m ∈ name <$> merge_chunk_nodes n c l ns ↔ m ∈ name <$> ns ∨ m = n.
Proof.
  rewrite names_merge_chunk_nodes. case_bool_decide as Hin.
  - split; [by left|]. by intros [?| ->].
  - rewrite elem_of_app, list_elem_of_singleton. done.
Qed.

Lemma elem_of_names_write_nodes m ws (ns : list Node) :
  m ∈ name <$> write_nodes ws ns ↔ m ∈ name <$> ns ∨ m ∈ chunk_name <$> ws.
Proof.
  revert ns. induction ws as [|d ws IH]; intros ns.
  - cbn. split; [by left|]. by intros [?|?%elem_of_nil].
  - rewrite write_nodes_cons, IH, elem_of_names_merge_chunk_nodes, fmap_cons,
      elem_of_cons. tauto.
Qed.

Lemma elem_of_same_language_pairs (ns : list Node) i j :
  (i, j) ∈ same_language_pairs ns ↔ linkable ns i j.
Proof.
  unfold same_language_pairs, linkable. rewrite list_elem_of_bind. split.
  - intros ([i' a] & Hin & Ha). apply elem_of_lookup_imap in Ha as (? & ? & [= <- <-] & Ha).
    apply list_elem_of_bind in Hin as ([j' b] & Hin & Hb).
    apply elem_of_lookup_imap in Hb as (? & ? & [= <- <-] & Hb).
    case_bool_decide as Hc; [|by apply elem_of_nil in Hin].
    apply list_elem_of_singleton in Hin as [= -> ->]. destruct Hc. eauto 10.
  - intros (a & b & Ha & Hb & Hne & Hl). exists (i, a). split.
    + apply list_elem_of_bind. exists (j, b). split.
      * rewrite bool_decide_eq_true_2 by done. by apply list_elem_of_singleton.
      * apply elem_of_lookup_imap. eauto.
    + apply elem_of_lookup_imap. eauto.
Qed.

Lemma linkable_sym ns i j : linkable ns i j → linkable ns j i.
Proof. intros (a & b & Ha & Hb & Hne & Hl). exists b, a. eauto. Qed.

Lemma linkable_lt ns i j : linkable ns i j → i < length ns ∧ j < length ns.
Proof. intros (a & b & Ha & Hb & _). split; by eapply lookup_lt_Some. Qed.

Lemma elem_of_edges_merge_same_language g i j :
  (i, j) ∈ edges (merge_same_language g) ↔ (i, j) ∈ edges g ∨ linkable (nodes g) i j.
Proof.
  unfold merge_same_language. cbn [edges nodes].
  by rewrite elem_of_union, elem_of_list_to_set, elem_of_same_language_pairs.
Qed.

Section IngestionProperties.

Variable split_text : Language → string → list string.
Variable loader_load : string → result (list Document).
Variable schema_of : Graph → string.
Variable py_repr : pyval → string.
Variable lang_str : Language → string.

Local Abbreviation load :=
  (load_source_code_to_graph split_text loader_load schema_of py_repr lang_str).

(** The store after a pass, by the outcome of the load. *)
Lemma load_graph_cases directory w :
  (∃ documents, loader_load directory = Ok documents
     ∧ graph (load directory w).1 = ingest split_text documents (graph w))
  ∨ (∃ e, loader_load directory = Raise e
     ∧ graph (load directory w).1 = graph w).
Proof.
  destruct (loader_load directory) as [documents|e] eqn:Hload.
  - left. exists documents. split; [done|].
    by destruct (load_run_ok split_text loader_load schema_of py_repr lang_str
                   directory documents w Hload) as [lines ->].
  - right. exists e. split; [done|].
    by rewrite (load_run_raise split_text loader_load schema_of py_repr lang_str
                  directory e w Hload).
Qed.

Lemma elem_of_edges_ingest documents g i j :
  (i, j) ∈ edges (ingest split_text documents g)
  ↔ (i, j) ∈ edges g ∨ linkable (nodes (ingest split_text documents g)) i j.
Proof.
  unfold ingest at 1.
  by rewrite elem_of_edges_merge_same_language, edges_apply_writes.
Qed.

(** X1. A pass keeps node names distinct: if no two nodes of the store
    share a name before the pass, none do after it, whether the load
    succeeds or fails. *)
Theorem pass_keeps_names_unique (directory : string) (w : World) :
  NoDup (name <$> nodes (graph w)) →
  NoDup (name <$> nodes (graph (load directory w).1)).
Proof.
  intros Hnd.
  destruct (load_graph_cases directory w) as [(docs & _ & ->)|(e & _ & ->)]; [|done].
  rewrite nodes_ingest. by apply NoDup_names_write_nodes.
Qed.

(** X2. A pass never removes, moves or renames a node: the node at a
    position before the pass is at the same position after it, under
    the same name, and it is left exactly as it was when no chunk of
    the pass carries its name. *)
Theorem pass_keeps_nodes_in_place (directory : string) (w : World)
    (i : nat) (x : Node) :
  nodes (graph w) !! i = Some x →
  ∃ y, nodes (graph (load directory w).1) !! i = Some y
       ∧ name y = name x
       ∧ ∀ documents, loader_load directory = Ok documents →
           name x ∉ chunk_name <$> chunk_writes split_text documents → y = x.
Proof.
  intros Hi.
  destruct (load_graph_cases directory w) as [(docs & Hl & ->)|(e & Hl & ->)].
  - exists (rewrite_node (chunk_writes split_text docs) x). split_and!.
    + rewrite nodes_ingest. by apply lookup_write_nodes.
    + apply rewrite_node_name.
    + intros docs' Hl'. rewrite Hl in Hl'. injection Hl' as <-.
      apply rewrite_node_untouched.
  - exists x. split_and!; [done..|]. intros docs Hl'. congruence.
Qed.

(** X3. After a successful pass the relationships of the store are
    exactly those it had before together with one for every ordered
    pair of distinct nodes that now have the same language value. *)
Theorem pass_links_exactly_same_language_pairs (directory : string)
    (documents : list Document) (w : World) (i j : nat) :
  loader_load directory = Ok documents →
  let g' := graph (load directory w).1 in
  (i, j) ∈ edges g' ↔ (i, j) ∈ edges (graph w) ∨ linkable (nodes g') i j.
Proof.
  intros Hl g'. subst g'.
  destruct (load_run_ok split_text loader_load schema_of py_repr lang_str
              directory documents w Hl) as [lines ->]. cbn [fst graph].
  apply elem_of_edges_ingest.
Qed.

(** X4. A pass keeps the relationships well formed: if every
    relationship joins two distinct existing nodes and has its reverse
    in the store, the same holds after the pass. *)
Theorem pass_keeps_edges_well_formed (directory : string) (w : World) :
  edges_wf (graph w) → edges_wf (graph (load directory w).1).
Proof.
  intros Hwf.
  destruct (load_graph_cases directory w) as [(docs & _ & ->)|(e & _ & ->)]; [|done].
  intros i j. rewrite !elem_of_edges_ingest.
  intros [Hold|Hnew].
  - destruct (Hwf i j Hold) as (Hne & Hi & Hj & Hrev).
    pose proof (length_write_nodes (chunk_writes split_text docs) (nodes (graph w))).
    rewrite nodes_ingest. split_and!; [done|lia|lia|by left].
  - destruct (linkable_lt _ _ _ Hnew) as [Hi Hj].
    split_and!; [by destruct Hnew as (?&?&?&?&?&?)|done|done|].
    right. by apply linkable_sym.
Qed.

(** X5. After a successful pass over a store with distinct names, the
    node names are the names the store had together with the names of
    the chunks written, each once. *)
Theorem pass_node_names (directory : string) (documents : list Document)
    (w : World) :
  loader_load directory = Ok documents →
  NoDup (name <$> nodes (graph w)) →
  name <$> nodes (graph (load directory w).1)
  ≡ₚ remove_dups ((name <$> nodes (graph w))
                    ++ (chunk_name <$> chunk_writes split_text documents)).
Proof.
  intros Hl Hnd.
  destruct (load_run_ok split_text loader_load schema_of py_repr lang_str
              directory documents w Hl) as [lines ->]. cbn [fst graph].
  rewrite nodes_ingest. apply NoDup_Permutation.
  - by apply NoDup_names_write_nodes.
  - apply NoDup_remove_dups.
  - intros m. by rewrite elem_of_remove_dups, elem_of_app, elem_of_names_write_nodes.
Qed.

(** X6. An empty directory is not an error: the pass returns normally,
    leaves every node as it was, and only runs the relationship
    statement over the nodes already in the store. *)
Theorem pass_over_empty_directory (directory : string) (w : World) :
  loader_load directory = Ok [] →
  (load directory w).2 = Ok tt
  ∧ graph (load directory w).1 = merge_same_language (graph w).
Proof.
  intros Hl.
  by destruct (load_run_ok split_text loader_load schema_of py_repr lang_str
                 directory [] w Hl) as [lines ->].
Qed.

End IngestionProperties.

(** * Further properties of document naming *)

Lemma after_last_sep_no_sep p cur : no_sep p = true → after_last_sep p cur = cur.
Proof.
  revert cur. induction p as [|c r IH]; intros cur; [done|]. cbn.
  destruct (Ascii.eqb c "/"); [done|]. cbn. apply IH.
Qed.

Lemma after_last_sep_dir dir file cur :
  no_sep file = true → after_last_sep (dir +:+ String "/" file) cur = file.
Proof.
  intros Hfile. revert cur. induction dir as [|c r IH]; intros cur; simpl.
  - by apply after_last_sep_no_sep.
  - destruct (Ascii.eqb c "/"); apply IH.
Qed.

Lemma no_sep_after_last_sep p cur :
  (no_sep p = true → no_sep cur = true) → no_sep (after_last_sep p cur) = true.
Proof.
  revert cur. induction p as [|c r IH]; intros cur Hcur; cbn.
  - by apply Hcur.
  - cbn in Hcur. destruct (Ascii.eqb c "/"); cbn in Hcur; by apply IH.
Qed.

(** X7. The name given to a document is the last component of its
    source path, whatever the directory: a document whose source is
    [dir/file], with no slash in [file], is named [file]. *)
Theorem document_name_ignores_directory (dir file text : string)
    (md : gmap string string) :
  no_sep file = true →
  chunk_name (set_document_name
                (mkDocument text (<["source" := dir +:+ "/" +:+ file]> md)))
  = file.
Proof.
  intros Hfile. unfold set_document_name, chunk_name, metadata_get. cbn.
  rewrite lookup_insert_eq. cbn. rewrite lookup_insert_eq. cbn.
  unfold basename. by apply after_last_sep_dir.
Qed.

(** X8. No name assigned to a document contains a slash. *)
Theorem document_name_has_no_slash (doc : Document) :
  no_sep (chunk_name (set_document_name doc)) = true.
Proof.
  unfold set_document_name, chunk_name, metadata_get.
  destruct (metadata doc !! "source") as [source|]; cbn; rewrite lookup_insert_eq; cbn.
  - unfold basename. by apply no_sep_after_last_sep.
  - done.
Qed.

(** X9. Naming replaces whatever name the loader supplied and nothing
    else: the text and every other metadata entry are kept, a document
    without a source is named 'Unknown', and naming a document twice is
    the same as naming it once. *)
Theorem naming_changes_only_the_name (doc : Document) :
  page_content (set_document_name doc) = page_content doc
  ∧ (∀ key, key ≠ "name" →
       metadata (set_document_name doc) !! key = metadata doc !! key)
  ∧ (metadata doc !! "source" = None → chunk_name (set_document_name doc) = "Unknown")
  ∧ set_document_name (set_document_name doc) = set_document_name doc.
Proof.
  unfold set_document_name, chunk_name, metadata_get.
  destruct (metadata doc !! "source") as [source|] eqn:Hs; cbn; split_and!; try done.
  - intros key Hk. by rewrite lookup_insert_ne.
  - rewrite lookup_insert_ne, Hs by done. cbn. by rewrite insert_insert_eq.
  - intros key Hk. by rewrite lookup_insert_ne.
  - intros _. by rewrite lookup_insert_eq.
  - rewrite lookup_insert_ne, Hs by done. cbn. by rewrite insert_insert_eq.
Qed.

(** * Further properties of query answering *)

Lemma prints_only_ret {A} (a : A) : prints_only (ret a).
Proof. intros w. exists []. by rewrite app_nil_r. Qed.

Lemma prints_only_raise {A} e : prints_only (raise (A:=A) e).
Proof. intros w. exists []. by rewrite app_nil_r. Qed.

Lemma prints_only_lift_result {A} (r : result A) : prints_only (lift_result r).
Proof. intros w. exists []. by rewrite app_nil_r. Qed.

Lemma prints_only_print line : prints_only (print line).
Proof. intros w. by exists [line]. Qed.

Lemma prints_only_bind {A B} (m : M A) (k : A → M B) :
  prints_only m → (∀ a, prints_only (k a)) → prints_only (bind m k).
Proof.
  intros Hm Hk w. unfold bind. destruct (Hm w) as [l1 H1].
  destruct (m w) as [w1 [a|e]]; cbn in *.
  - destruct (Hk a w1) as [l2 H2]. exists (l1 ++ l2).
    by rewrite H2, H1, fmap_app, app_assoc.
  - by exists l1.
Qed.

Lemma prints_only_try_except {A} (body : M A) handler :
  prints_only body → (∀ e, prints_only (handler e)) →
  prints_only (try_except body handler).
Proof.
  intros Hm Hk w. unfold try_except. destruct (Hm w) as [l1 H1].
  destruct (body w) as [w1 [a|e]]; cbn in *.
  - by exists l1.
  - destruct (Hk e w1) as [l2 H2]. exists (l1 ++ l2).
    by rewrite H2, H1, fmap_app, app_assoc.
Qed.

Ltac prints_only_step :=
  first [ apply prints_only_bind; [|intros]
        | apply prints_only_try_except; [|intros]
        | apply prints_only_ret
        | apply prints_only_raise
        | apply prints_only_lift_result
        | apply prints_only_print
        | case_match ].

Lemma filter_prints_nil lines :
  filter (λ e, is_print e = false) (EvPrint <$> lines) = [].
Proof.
  induction lines as [|l lines IH]; [done|].
  rewrite fmap_cons, filter_cons_False by done. exact IH.
Qed.

Lemma string_length_append a b :
  String.length (a +:+ b) = String.length a + String.length b.
Proof. induction a as [|c a IH]; simpl; [done|]. f_equal. exact IH. Qed.

Lemma substring_whole n s : String.length s ≤ n → String.substring 0 n s = s.
Proof.
  revert s. induction n as [|n IH]; intros [|c s]; cbn; try done; try lia.
  intros H. f_equal. apply IH. lia.
Qed.

Lemma bind_ext {A B} (m : M A) (k1 k2 : A → M B) w :
  (∀ a w', k1 a w' = k2 a w') → bind m k1 w = bind m k2 w.
Proof. intros H. unfold bind. by destruct (m w) as [w' [a|e]]. Qed.

Lemma dict_contains_is_dict key response :
  dict_contains key response = true → is_dict response = true.
Proof. by destruct response. Qed.

Section QueryProperties.

Variable py_repr : pyval → string.

Local Abbreviation answer := (answer_query py_repr).
Local Abbreviation loop := (question_loop py_repr).

Lemma prints_only_answer_query chain question : prints_only (answer chain question).
Proof. unfold answer_query. repeat prints_only_step. Qed.

(** X10. A response that announces intermediate steps but from which
    the generated query or its result cannot be read (no step, or a
    step without the 'query' or the 'result' entry) is answered with
    the error sentence carrying the message of the exception that the
    failed access raised. *)
Theorem unreadable_response_becomes_error_answer (chain : Chain)
    (question : string) (w : World) (response : pyval) (e : exn) :
  chain question = Ok response →
  dict_contains "intermediate_steps" response = true →
  first_step response "query" = Raise e
  ∨ (∃ cypher, first_step response "query" = Ok cypher
               ∧ first_step response "result" = Raise e) →
  (answer chain question w).2
  = Ok ("An error occurred while processing your query: " +:+ exn_msg e).
Proof.
  intros Hrun Hsteps Hbad.
  unfold answer_query, try_except, bind, lift_result.
  rewrite Hrun, (dict_contains_is_dict _ _ Hsteps), Hsteps. cbn.
  destruct Hbad as [->|(cypher & -> & Hres)]; [done|]. cbn. by rewrite Hres.
Qed.

(** X11. A response that is not a dictionary with intermediate steps is
    passed through when it is a string and reported by its type when it
    is anything else; nothing is printed in either case. *)
Theorem response_without_steps (chain : Chain) (question : string) (w : World)
    (response : pyval) :
  chain question = Ok response →
  dict_contains "intermediate_steps" response = false →
  answer chain question w
  = (w, Ok (match response with
            | PyStr text => text
            | _ => "Unable to generate an answer. Response structure: "
                     +:+ py_type_str response
            end)).
Proof.
  intros Hrun Hsteps.
  unfold answer_query, try_except, bind, lift_result.
  rewrite Hrun, Hsteps, andb_false_r. by destruct response.
Qed.

(** X12. The content shown in an answer is never cut when it has at
    most 1000 characters, although the answer still ends in '...'; and
    whatever the content, the answer has at most 1027 characters. *)
Theorem short_content_is_shown_whole (chain : Chain) (question : string)
    (w : World) (response cypher : pyval)
    (row : list (string * pyval)) (rest : list pyval) (text : string) :
  chain question = Ok response →
  first_step response "query" = Ok cypher →
  first_step response "result" = Ok (PyList (PyDict row :: rest)) →
  default (PyStr "") (dict_lookup "c.content" row) = PyStr text →
  text ≠ "" →
  ∃ shown,
    (answer chain question w).2 = Ok shown
    ∧ String.length shown ≤ 1027
    ∧ (String.length text ≤ 1000 →
       shown = "Found relevant content: " +:+ text +:+ "...").
Proof.
  intros Hrun Hquery Hresult Hcontent Htext%String.eqb_neq.
  exists ("Found relevant content: " +:+ String.substring 0 1000 text +:+ "...").
  split_and!.
  - unfold answer_query, try_except, bind, lift_result.
    rewrite Hrun, (first_step_shape _ _ _ Hquery), Hquery. cbn.
    rewrite Hresult. cbn. rewrite Hcontent. cbn. by rewrite Htext.
  - rewrite !string_length_append.
    pose proof (substring_length_le 1000 text).
    change (String.length "Found relevant content: ") with 24.
    change (String.length "...") with 3. lia.
  - intros Hlen. by rewrite substring_whole.
Qed.

(** X13. The loop reads nothing after the first exit line: what follows
    it on standard input has no effect. *)
Theorem loop_stops_at_exit (chain : Chain) (questions : list string)
    (line : string) (rest : list string) (w : World) :
  is_exit line = true →
  loop chain (questions ++ line :: rest) w = loop chain (questions ++ [line]) w.
Proof.
  intros Hexit. revert w. induction questions as [|q qs IH]; intros w.
  - rewrite !app_nil_l. cbn [question_loop]. by rewrite Hexit.
  - rewrite <- !app_comm_cons. cbn [question_loop].
    apply bind_ext. intros _ w1. destruct (is_exit q); [done|].
    apply bind_ext. intros _ w2. apply bind_ext. intros _ w3. apply IH.
Qed.

(** X14. Apart from printed lines, the only events of the loop are its
    prompts, one for every line up to and including the first exit
    line and one more at the end of input when there is none: the loop
    never loads the directory. *)
Theorem loop_prompts_once_per_line_read (chain : Chain) (stdin : list string)
    (w : World) :
  ∃ tr, trace (loop chain stdin w).1 = trace w ++ tr
        ∧ filter (λ e, is_print e = false) tr
          = replicate (prompts_shown stdin) (EvInput prompt).
Proof.
  revert w. induction stdin as [|line stdin IH]; intros w.
  - exists [EvInput prompt]. done.
  - cbn [question_loop prompts_shown]. unfold bind at 1. cbn [emit].
    destruct (is_exit line).
    { exists [EvInput prompt]. done. }
    unfold bind at 1. unfold try_except at 1. unfold bind at 1.
    set (w1 := mkWorld (graph w) (schema w) (trace w ++ [EvInput prompt])).
    destruct (answer_query_returns py_repr chain line w1) as [text Htext].
    destruct (prints_only_answer_query chain line w1) as [lines Hlines].
    destruct (answer chain line w1) as [w2 r]. cbn in Htext, Hlines. subst r.
    cbn [print emit]. unfold bind at 1. cbn [print emit].
    match goal with |- context [question_loop _ _ _ ?w3] =>
      destruct (IH w3) as (tr & -> & Htr) end.
    cbn [trace]. rewrite Hlines. subst w1. cbn [trace].
    exists ([EvInput prompt] ++ (EvPrint <$> lines)
              ++ [EvPrint ("Answer: " +:+ text)] ++ [EvPrint ""] ++ tr).
    split; [by rewrite <- !app_assoc|].
    rewrite !filter_app, filter_prints_nil, Htr. done.
Qed.

End QueryProperties.

(** * Further properties of the process *)

Lemma loads_before_input_no_prompt lines :
  loads_before_input (EvPrint <$> lines) = None.
Proof. induction lines as [|l lines IH]; [done|]. exact IH. Qed.

Section ProcessProperties.

Variable split_text : Language → string → list string.
Variable loader_load : string → result (list Document).
Variable schema_of : Graph → string.
Variable py_repr : pyval → string.
Variable lang_str : Language → string.
Variable chain_from_llm : Graph → result Chain.

Local Abbreviation load :=
  (load_source_code_to_graph split_text loader_load schema_of py_repr lang_str).
Local Abbreviation setup := (setup_qa_chain schema_of chain_from_llm).
Local Abbreviation loop := (question_loop py_repr).
Local Abbreviation run_main :=
  (main split_text loader_load schema_of py_repr lang_str chain_from_llm).
Local Abbreviation run_app :=
  (app split_text loader_load schema_of py_repr lang_str chain_from_llm).

Lemma setup_qa_chain_run_fail (w : World) (e : exn) :
  (schema_of (graph w) = "" ∧ e = empty_schema_error)
  ∨ (schema_of (graph w) ≠ "" ∧ chain_from_llm (graph w) = Raise e) →
  setup w
  = (mkWorld (graph w) (schema_of (graph w))
       (trace w ++ [EvPrint ("Error setting up QA Chain: " +:+ exn_msg e)]),
     Raise e).
Proof.
  unfold setup_qa_chain, try_except, bind, refresh_schema, get_schema, get_graph,
    lift_result. cbn [graph schema trace].
  intros [[Hs ->]|[Hs%String.eqb_neq He]].
  - by rewrite Hs.
  - rewrite Hs. cbn [graph]. by rewrite He.
Qed.

(** X15. However the chain setup fails (the refreshed schema is empty,
    or building the chain raises), [setup_qa_chain] prints the error,
    raises it again and leaves the store as it was; with an empty
    schema the chain is not even built. *)
Theorem setup_failure_is_reported_and_raised (w : World) (e : exn) :
  (schema_of (graph w) = "" ∧ e = empty_schema_error)
  ∨ (schema_of (graph w) ≠ "" ∧ chain_from_llm (graph w) = Raise e) →
  setup w
  = (mkWorld (graph w) (schema_of (graph w))
       (trace w ++ [EvPrint ("Error setting up QA Chain: " +:+ exn_msg e)]),
     Raise e).
Proof.
  unfold setup_qa_chain, try_except, bind, refresh_schema, get_schema, get_graph,
    lift_result. cbn [graph schema trace].
  intros [[Hs ->]|[Hs%String.eqb_neq He]].
  - by rewrite Hs.
  - rewrite Hs. cbn [graph]. by rewrite He.
Qed.

(** The run of [main] up to the loop when every service is available. *)
Lemma main_run_ok documents chain stdin w :
  loader_load directory_path = Ok documents →
  schema_of (ingest split_text documents (graph w)) ≠ "" →
  chain_from_llm (ingest split_text documents (graph w)) = Ok chain →
  ∃ lines,
    run_main stdin w
    = (let '(w3, r) :=
         loop chain stdin
           (mkWorld (ingest split_text documents (graph w))
              (schema_of (ingest split_text documents (graph w)))
              (trace w ++ EvPrint ("Loading source code from: " +:+ directory_path)
                 :: EvLoad directory_path :: (EvPrint <$> lines))) in
       (mkWorld (graph w3) (schema w3)
          (trace w3
             ++ match r with
                | Ok _ => []
                | Raise e => [EvPrint ("An error occurred: " +:+ exn_msg e)]
                end
             ++ [EvPrint "Exiting the program."]),
        Ok tt)).
Proof.
  intros Hload Hschema Hchain.
  unfold main. unfold bind at 1. unfold try_except at 1.
  unfold bind at 1. cbn [print emit graph schema trace].
  unfold bind at 1.
  match goal with |- context [load_source_code_to_graph _ _ _ _ _ ?d ?w1] =>
    destruct (load_run_ok split_text loader_load schema_of py_repr lang_str
                d documents w1 Hload) as [l2 E2]; rewrite E2 end.
  cbn [graph schema trace].
  unfold bind at 1. cbn [get_graph graph].
  unfold bind at 1. cbn [print emit graph schema trace].
  unfold bind at 1.
  rewrite setup_qa_chain_run_ok with (chain:=chain) by done.
  cbn [graph schema trace].
  exists (l2 ++ ["Loaded " +:+ py_repr (PyInt (Z.of_nat (length (nodes
            (ingest split_text documents (graph w)))))) +:+ " code chunks into the graph.";
                 "QA Chain setup successfully."]).
  match goal with
  | |- context [question_loop _ _ _ (mkWorld ?g ?s ?t1)] =>
      match goal with
      | |- _ = (let '(_, _) := question_loop _ _ _ (mkWorld _ _ ?t2) in _) =>
          replace t1 with t2 by (rewrite fmap_app, <- !app_assoc; reflexivity)
      end
  end.
  destruct (question_loop py_repr chain stdin _) as [w3 [[]|e]];
    unfold print, emit; cbn [graph schema trace]; by rewrite <- ?app_assoc.
Qed.

(** X16. When the directory cannot be loaded, the program started as a
    script ends at once with the loader's exception, before [main]
    runs: nothing is asked and no closing line is printed. [main] on
    its own catches the same failure, reports it and returns normally.
    The store is untouched in both cases. *)
Theorem load_failure_at_startup (stdin : list string) (w : World) (e : exn) :
  loader_load directory_path = Raise e →
  run_app stdin w
  = (mkWorld (graph w) (schema w)
       (trace w ++ [EvLoad directory_path;
                    EvPrint ("Error loading source code: " +:+ exn_msg e)]),
     Raise e)
  ∧ run_main stdin w
    = (mkWorld (graph w) (schema w)
         (trace w ++ [EvPrint ("Loading source code from: " +:+ directory_path);
                      EvLoad directory_path;
                      EvPrint ("Error loading source code: " +:+ exn_msg e);
                      EvPrint ("An error occurred: " +:+ exn_msg e);
                      EvPrint "Exiting the program."]),
       Ok tt).
Proof.
  intros Hload. split.
  - unfold app, bind.
    rewrite (load_run_raise split_text loader_load schema_of py_repr lang_str
               directory_path e w Hload).
    done.
  - unfold main. unfold bind at 1. unfold try_except at 1.
    unfold bind at 1. cbn [print emit graph schema trace].
    unfold bind at 1.
    rewrite (load_run_raise split_text loader_load schema_of py_repr lang_str
               directory_path e _ Hload).
    cbn [graph schema trace]. unfold print, emit. cbn [graph schema trace].
    by rewrite <- ?app_assoc.
Qed.

(** The run of [main] when the chain cannot be set up. *)
Lemma main_run_no_chain (stdin : list string) (w : World)
    (documents : list Document) (e : exn) :
  loader_load directory_path = Ok documents →
  let g' := ingest split_text documents (graph w) in
  (schema_of g' = "" ∧ e = empty_schema_error)
  ∨ (schema_of g' ≠ "" ∧ chain_from_llm g' = Raise e) →
  ∃ lines,
    run_main stdin w
    = (mkWorld g' (schema_of g')
         (trace w ++ EvPrint ("Loading source code from: " +:+ directory_path)
            :: EvLoad directory_path :: (EvPrint <$> lines)
            ++ [EvPrint ("Error setting up QA Chain: " +:+ exn_msg e);
                EvPrint ("An error occurred: " +:+ exn_msg e);
                EvPrint "Exiting the program."]),
       Ok tt).
Proof.
  intros Hload g' Hfail.
  unfold main. unfold bind at 1. unfold try_except at 1.
  unfold bind at 1. cbn [print emit graph schema trace].
  unfold bind at 1.
  match goal with |- context [load_source_code_to_graph _ _ _ _ _ ?d ?w1] =>
    destruct (load_run_ok split_text loader_load schema_of py_repr lang_str
                d documents w1 Hload) as [l2 E2]; rewrite E2 end.
  cbn [graph schema trace]. fold g'.
  unfold bind at 1. cbn [get_graph graph].
  unfold bind at 1. cbn [print emit graph schema trace].
  unfold bind at 1.
  rewrite (setup_qa_chain_run_fail _ e) by done.
  cbn [graph schema trace]. unfold print, emit. cbn [graph schema trace].
  exists (l2 ++ ["Loaded " +:+ py_repr (PyInt (Z.of_nat (length (nodes g'))))
                   +:+ " code chunks into the graph."]).
  f_equal. f_equal. rewrite fmap_app, <- !app_assoc. reflexivity.
Qed.

(** X17. When the documents load but the chain cannot be set up, [main]
    never prompts: it reports the failure twice (once from
    [setup_qa_chain], once from its own handler), prints the closing
    line and returns normally, leaving the ingested store in place. *)
Theorem main_without_chain_never_prompts (stdin : list string) (w : World)
    (documents : list Document) (e : exn) :
  loader_load directory_path = Ok documents →
  let g' := ingest split_text documents (graph w) in
  (schema_of g' = "" ∧ e = empty_schema_error)
  ∨ (schema_of g' ≠ "" ∧ chain_from_llm g' = Raise e) →
  ∃ lines,
    run_main stdin w
    = (mkWorld g' (schema_of g')
         (trace w ++ EvPrint ("Loading source code from: " +:+ directory_path)
            :: EvLoad directory_path :: (EvPrint <$> lines)
            ++ [EvPrint ("Error setting up QA Chain: " +:+ exn_msg e);
                EvPrint ("An error occurred: " +:+ exn_msg e);
                EvPrint "Exiting the program."]),
       Ok tt).
Proof.
  intros Hload g' Hfail.
  unfold main. unfold bind at 1. unfold try_except at 1.
  unfold bind at 1. cbn [print emit graph schema trace].
  unfold bind at 1.
  match goal with |- context [load_source_code_to_graph _ _ _ _ _ ?d ?w1] =>
    destruct (load_run_ok split_text loader_load schema_of py_repr lang_str
                d documents w1 Hload) as [l2 E2]; rewrite E2 end.
  cbn [graph schema trace]. fold g'.
  unfold bind at 1. cbn [get_graph graph].
  unfold bind at 1. cbn [print emit graph schema trace].
  unfold bind at 1.
  rewrite (setup_qa_chain_run_fail _ e) by done.
  cbn [graph schema trace]. unfold print, emit. cbn [graph schema trace].
  exists (l2 ++ ["Loaded " +:+ py_repr (PyInt (Z.of_nat (length (nodes g'))))
                   +:+ " code chunks into the graph."]).
  f_equal. f_equal. rewrite fmap_app, <- !app_assoc. reflexivity.
Qed.

(** X18. When standard input ends without an exit line, [main] still
    returns normally: the end-of-input error of the last prompt is
    caught, reported, and followed by the closing line. *)
Theorem main_ends_cleanly_at_end_of_input (stdin : list string) (w : World)
    (documents : list Document) (chain : Chain) :
  loader_load directory_path = Ok documents →
  schema_of (ingest split_text documents (graph w)) ≠ "" →
  chain_from_llm (ingest split_text documents (graph w)) = Ok chain →
  existsb is_exit stdin = false →
  (run_main stdin w).2 = Ok tt
  ∧ ∃ pre, trace (run_main stdin w).1
           = pre ++ [EvPrint "An error occurred: EOF when reading a line";
                     EvPrint "Exiting the program."].
Proof.
  intros Hload Hschema Hchain Hnoexit.
  destruct (main_run_ok documents chain stdin w Hload Hschema Hchain) as [lines ->].
  match goal with |- context [question_loop _ _ _ ?w1] =>
    pose proof (question_loop_result py_repr chain stdin w1) as Hres;
    destruct (question_loop py_repr chain stdin w1) as [w3 r] end.
  cbn [snd] in Hres. rewrite Hnoexit in Hres. subst r.
  cbn [fst snd trace]. split; [done|]. by exists (trace w3).
Qed.

(** X19. Whatever the services do, the program started as a script
    either never prompts for a question or has loaded the directory
    exactly twice before its first prompt. *)
Theorem app_prompts_only_after_two_passes (stdin : list string) (g : Graph)
    (s : string) :
  let tr := trace (run_app stdin (mkWorld g s [])).1 in
  loads_before_input tr = None ∨ loads_before_input tr = Some 2.
Proof.
  intros tr.
  enough (∃ o, loads_before_input tr = o ∧ (o = None ∨ o = Some 2))
    as (o & -> & Ho) by exact Ho.
  subst tr. unfold app. unfold bind at 1.
  destruct (loader_load directory_path) as [documents|e] eqn:Hload.
  - destruct (load_run_ok split_text loader_load schema_of py_repr lang_str
                directory_path documents (mkWorld g s []) Hload) as [l1 ->].
    cbn [graph schema trace].
    set (g1 := ingest split_text documents g).
    set (w1 := mkWorld g1 (schema_of g1) ([] ++ EvLoad directory_path :: (EvPrint <$> l1))).
    assert (∀ tr', loads_before_input (trace w1 ++ EvPrint
              ("Loading source code from: " +:+ directory_path)
              :: EvLoad directory_path :: tr')
            = S <$> (S <$> loads_before_input tr')) as Hpre.
    { intros tr'. subst w1. cbn [trace].
      rewrite app_nil_l, <- app_comm_cons, loads_before_input_load,
        loads_before_input_prints. done. }
    destruct (decide (schema_of (ingest split_text documents (graph w1)) = ""))
      as [Hs|Hs].
    { destruct (main_run_no_chain stdin w1 documents empty_schema_error Hload)
        as [lines ->]; [by left|].
      exists None. split; [|by left].
      cbn [fst trace]. rewrite Hpre, loads_before_input_prints. done. }
    destruct (chain_from_llm (ingest split_text documents (graph w1)))
      as [chain|e] eqn:Hchain.
    + destruct (main_run_ok documents chain stdin w1 Hload Hs Hchain) as [lines ->].
      match goal with |- context [question_loop _ _ _ ?w2] =>
        destruct (question_loop_prompts_first py_repr chain stdin w2) as [tr Htr];
        destruct (question_loop py_repr chain stdin w2) as [w3 r] end.
      cbn [fst trace] in Htr |- *. exists (Some 2). split; [|by right].
      rewrite Htr, <- !app_assoc, <- !app_comm_cons, Hpre, loads_before_input_prints.
      done.
    + destruct (main_run_no_chain stdin w1 documents e Hload) as [lines ->];
        [by right|].
      exists None. split; [|by left].
      cbn [fst trace]. rewrite Hpre, loads_before_input_prints. done.
  - rewrite (load_run_raise split_text loader_load schema_of py_repr lang_str
               directory_path e _ Hload).
    exists None. split; [done|by left].
Qed.
End ProcessProperties.

(** * Properties of the earlier draft, [src/Untitled-1.py] *)


Section DraftProperties.

Variable text_splitter : result (string → list string).
Variable loader_load : string → result (list Document).
Variable schema_of : Graph → string.
Variable py_repr : pyval → string.
Variable chain_from_llm : Graph → result Chain.

Local Abbreviation load :=
  (Draft.load_source_code_to_graph text_splitter loader_load schema_of py_repr).
Local Abbreviation setup := (Draft.setup_qa_chain schema_of chain_from_llm).
Local Abbreviation loop := (Draft.question_loop py_repr).
Local Abbreviation run_main :=
  (Draft.main text_splitter loader_load schema_of py_repr chain_from_llm).

(** A pass of the draft when the load and the splitter both succeed. *)
Lemma draft_load_run_ok directory documents split_text w :
  loader_load directory = Ok documents →
  text_splitter = Ok split_text →
  ∃ lines,
    load directory w
    = (let g' := merge_same_language
                   (apply_writes (Draft.split_documents split_text documents) (graph w)) in
       (mkWorld g' (schema_of g') (trace w ++ EvLoad directory :: (EvPrint <$> lines)),
        Ok tt)).
Proof.
  intros Hload Hsplit. unfold Draft.load_source_code_to_graph, try_except.
  unfold bind at 1. cbn [emit]. unfold bind at 1. unfold lift_result at 1.
  rewrite Hload. unfold bind at 1. cbn [print emit graph schema trace].
  unfold bind at 1. unfold lift_result at 1. rewrite Hsplit.
  unfold bind at 1. cbn [print emit graph schema trace].
  unfold bind at 1. rewrite for_each_graph_update. cbn [graph schema trace].
  unfold bind, graph_update, refresh_schema, get_schema, print, emit.
  cbn [graph schema trace].
  eexists [_; _; _]. unfold apply_writes. f_equal. f_equal.
  rewrite <- !app_assoc. reflexivity.
Qed.

(** X20. In the draft, a splitter that cannot be built stops the pass
    after the directory has been read: the error is printed and raised
    again, and the store is left as it was. *)
Theorem draft_splitter_failure (directory : string) (documents : list Document)
    (e : exn) (w : World) :
  loader_load directory = Ok documents →
  text_splitter = Raise e →
  load directory w
  = (mkWorld (graph w) (schema w)
       (trace w
          ++ [EvLoad directory;
              EvPrint ("Loaded documents: "
                         +:+ py_repr (PyList ((λ doc, PyStr (chunk_name doc))
                                                <$> documents)));
              EvPrint ("Error loading source code: " +:+ exn_msg e)]),
     Raise e).
Proof.
  intros Hload Hsplit. unfold Draft.load_source_code_to_graph, try_except.
  unfold bind at 1. cbn [emit]. unfold bind at 1. unfold lift_result at 1.
  rewrite Hload. unfold bind at 1. cbn [print emit graph schema trace].
  unfold bind at 1. unfold lift_result at 1. rewrite Hsplit.
  unfold bind, raise, print, emit. cbn [graph schema trace].
  by rewrite <- !app_assoc.
Qed.


(** The draft's chain setup when it fails. *)
Lemma draft_setup_run_fail (w : World) (e : exn) :
  (schema_of (graph w) = "" ∧ e = empty_schema_error)
  ∨ (schema_of (graph w) ≠ "" ∧ chain_from_llm (graph w) = Raise e) →
  setup w
  = (mkWorld (graph w) (schema_of (graph w))
       (trace w ++ [EvPrint ("Error setting up QA Chain: " +:+ exn_msg e)]),
     Ok None).
Proof.
  unfold Draft.setup_qa_chain, try_except, bind, refresh_schema, get_schema,
    get_graph, lift_result. cbn [graph schema trace].
  intros [[Hs ->]|[Hs%String.eqb_neq He]].
  - by rewrite Hs.
  - rewrite Hs. cbn [graph]. by rewrite He.
Qed.


(** The draft's loop on a question whose answer raises. *)
Lemma draft_loop_run_fail (qa_chain : option Chain)
    (question : string) (rest : list string) (e : exn) (w : World) :
  is_exit question = false →
  (qa_chain = None
     ∧ e = AttributeError "'NoneType' object has no attribute 'invoke'")
  ∨ (∃ chain, qa_chain = Some chain
       ∧ (chain question = Raise e
          ∨ ∃ response, chain question = Ok response
                        ∧ py_getitem response "result" = Raise e)) →
  loop qa_chain (question :: rest) w
  = (mkWorld (graph w) (schema w) (trace w ++ [EvInput prompt]), Raise e).
Proof.
  intros Hexit Hbad. cbn [Draft.question_loop]. unfold bind at 1. cbn [emit].
  rewrite Hexit. unfold bind at 1.
  destruct Hbad as [[-> ->]|(chain & -> & [Hc|(response & Hc & Hr)])].
  - done.
  - unfold Draft.answer_query, bind, lift_result. by rewrite Hc.
  - unfold Draft.answer_query, bind, lift_result. by rewrite Hc, Hr.
Qed.


(** X22. In the draft, a failed chain setup is printed but not raised:
    [setup_qa_chain] returns [None] and leaves the store as it was. *)
Theorem draft_setup_failure_returns_none (w : World) (e : exn) :
  (schema_of (graph w) = "" ∧ e = empty_schema_error)
  ∨ (schema_of (graph w) ≠ "" ∧ chain_from_llm (graph w) = Raise e) →
  setup w
  = (mkWorld (graph w) (schema_of (graph w))
       (trace w ++ [EvPrint ("Error setting up QA Chain: " +:+ exn_msg e)]),
     Ok None).
Proof.
  unfold Draft.setup_qa_chain, try_except, bind, refresh_schema, get_schema,
    get_graph, lift_result. cbn [graph schema trace].
  intros [[Hs ->]|[Hs%String.eqb_neq He]].
  - by rewrite Hs.
  - rewrite Hs. cbn [graph]. by rewrite He.
Qed.

(** X23. In the draft, nothing catches an error raised while a question
    is answered. With a chain of [None] (the setup failed) or a chain
    whose call raises or whose response has no 'result' entry, the
    loop ends with that exception right after the prompt: no answer is
    printed and no further line is read. *)
Theorem draft_question_error_ends_loop (qa_chain : option Chain)
    (question : string) (rest : list string) (e : exn) (w : World) :
  is_exit question = false →
  (qa_chain = None
     ∧ e = AttributeError "'NoneType' object has no attribute 'invoke'")
  ∨ (∃ chain, qa_chain = Some chain
       ∧ (chain question = Raise e
          ∨ ∃ response, chain question = Ok response
                        ∧ py_getitem response "result" = Raise e)) →
  loop qa_chain (question :: rest) w
  = (mkWorld (graph w) (schema w) (trace w ++ [EvInput prompt]), Raise e).
Proof.
  intros Hexit Hbad. cbn [Draft.question_loop]. unfold bind at 1. cbn [emit].
  rewrite Hexit. unfold bind at 1.
  destruct Hbad as [[-> ->]|(chain & -> & [Hc|(response & Hc & Hr)])].
  - done.
  - unfold Draft.answer_query, bind, lift_result. by rewrite Hc.
  - unfold Draft.answer_query, bind, lift_result. by rewrite Hc, Hr.
Qed.

(** X24. In the draft, when the documents load but the chain setup
    fails, [main] goes on to prompt with no chain: an exit line ends it
    normally, any other first line ends the process with an
    [AttributeError], the ingested store staying in place. *)
Theorem draft_main_without_chain (line : string) (rest : list string)
    (documents : list Document) (split_text : string → list string)
    (e : exn) (w : World) :
  loader_load directory_path = Ok documents →
  text_splitter = Ok split_text →
  let g' := merge_same_language
              (apply_writes (Draft.split_documents split_text documents) (graph w)) in
  (schema_of g' = "" ∧ e = empty_schema_error)
  ∨ (schema_of g' ≠ "" ∧ chain_from_llm g' = Raise e) →
  graph (run_main (line :: rest) w).1 = g'
  ∧ (run_main (line :: rest) w).2
    = if is_exit line then Ok tt
      else Raise (AttributeError "'NoneType' object has no attribute 'invoke'").
Proof.
  intros Hload Hsplit g' Hfail.
  enough (∃ tr, run_main (line :: rest) w
                = (mkWorld g' (schema_of g') tr,
                   if is_exit line then Ok tt
                   else Raise (AttributeError
                                 "'NoneType' object has no attribute 'invoke'")))
    as [tr ->] by done.
  unfold Draft.main. unfold bind at 1. cbn [print emit graph schema trace].
  unfold bind at 1.
  match goal with |- context [Draft.load_source_code_to_graph _ _ _ _ ?d ?w1] =>
    destruct (draft_load_run_ok d documents split_text w1 Hload Hsplit)
      as [lines ->] end.
  cbn [graph schema trace]. fold g'.
  unfold bind at 1. rewrite (draft_setup_run_fail _ e) by done.
  cbn [graph schema trace].
  destruct (is_exit line) eqn:Hexit.
  - cbn [Draft.question_loop]. unfold bind. cbn [emit]. rewrite Hexit. eauto.
  - rewrite (draft_loop_run_fail None line rest
               (AttributeError "'NoneType' object has no attribute 'invoke'"))
      by (done || by left).
    cbn [graph schema trace]. eauto.
Qed.

End DraftProperties.
(** * The script on the sample environment *)

Example basename_of_path : basename "/repo/pkg/util.py" = "util.py".
Proof. reflexivity. Qed.

Example basename_without_directory : basename "util.py" = "util.py".
Proof. reflexivity. Qed.

Example lower_exit : is_exit "EXIT" = true ∧ is_exit "Exit" = true ∧ is_exit "exit " = false.
Proof. by vm_compute. Qed.

(** One pass over [a.py], [c.py] and [b.go] leaves three nodes and the
    two relationships between the Python files. *)
Example sample_pass_graph :
  nodes (graph (sample_pass fresh_world))
  = [mkNode "a.py" "print('a')" "python"; mkNode "c.py" "print('c')" "python";
     mkNode "b.go" "package main" "go"]
  ∧ edges (graph (sample_pass fresh_world)) = {[ (0, 1); (1, 0) ]}.
Proof. split; by vm_compute. Qed.

Lemma name_is_sole_node_key_witness :
  let doc1 := set_document_name util_document_a in
  let doc2 := set_document_name util_document_b in
  let g' := apply_writes [doc1; doc2] empty_graph in
  filter (λ x, name x = chunk_name doc2) (nodes g')
    = [mkNode (chunk_name doc2) (page_content doc2) (chunk_language doc2)]
  ∧ NoDup (name <$> nodes g')
  ∧ ∀ earlier, chunk_name earlier = chunk_name doc2 →
      merge_document doc2 (merge_document earlier empty_graph)
      = merge_document doc2 empty_graph.
Proof.
  apply (name_is_sole_node_key empty_graph
           [set_document_name util_document_a; set_document_name util_document_b]
           (set_document_name util_document_b)).
  - vm_compute. constructor.
  - vm_compute. reflexivity.
Defined.

(** Both files named [util.py] end up in one node holding the second. *)
Example same_basename_files_collapse :
  nodes (apply_writes [set_document_name util_document_a;
                       set_document_name util_document_b] empty_graph)
  = [mkNode "util.py" "def render(): pass" "python"].
Proof. by vm_compute. Qed.

(** C2, as stated, fails on the sample directory: the second pass
    leaves the relationship set exactly as the first pass left it, so
    ingestion is not non-idempotent for relationships there. *)
Lemma rerun_adds_no_edges_on_sample :
  ¬ (nodes (graph (sample_pass (sample_pass fresh_world)))
       = nodes (graph (sample_pass fresh_world))
     ∧ edges (graph (sample_pass fresh_world))
         ⊆ edges (graph (sample_pass (sample_pass fresh_world)))
     ∧ adds_edges_on_rerun sample_pass fresh_world).
Proof.
  intros (_ & _ & Hgrow). apply Hgrow. by vm_compute.
Qed.



Lemma markdown_pass_wins_witness :
  let named := set_document_name <$> sample_documents in
  let g' := graph (sample_load directory_path fresh_world).1 in
  g' = merge_same_language
         (apply_writes
            (split_documents fixed_width_split_text PYTHON named
               ++ split_documents fixed_width_split_text JS named
               ++ split_documents fixed_width_split_text GO named
               ++ split_documents fixed_width_split_text HTML named
               ++ split_documents fixed_width_split_text MARKDOWN named)
            (graph fresh_world))
  ∧ ∀ x chunk,
      x ∈ nodes g' →
      last_chunk_named (name x)
        (split_documents fixed_width_split_text MARKDOWN named) = Some chunk →
      content x = page_content chunk ∧ language x = chunk_language chunk.
Proof.
  apply (markdown_pass_wins fixed_width_split_text sample_loader sample_schema_of
           plain_repr enum_str directory_path sample_documents fresh_world).
  reflexivity.
Defined.



Lemma question_errors_become_answers_witness :
  (answer_query plain_repr sample_chain "what does main do?" fresh_world).2
  = Ok "An error occurred while processing your query: Couldn't connect to localhost:7687".
Proof.
  apply (question_errors_become_answers fixed_width_split_text sample_loader
           sample_schema_of plain_repr enum_str sample_chain_from_llm
           sample_chain "what does main do?" fresh_world
           (Exception "ServiceUnavailable" "Couldn't connect to localhost:7687")
           ["what does main do?"; "exit"]).
  reflexivity.
Defined.

Lemma app_ingests_twice_before_prompt_witness :
  loads_before_input (trace (sample_app ["exit"] fresh_world).1) = Some 2.
Proof.
  apply (app_ingests_twice_before_prompt fixed_width_split_text sample_loader
           sample_schema_of plain_repr enum_str sample_chain_from_llm
           ["exit"] empty_graph "" sample_documents sample_chain).
  - reflexivity.
  - vm_compute. discriminate.
  - reflexivity.
Defined.

(** * Further runs on the sample environment *)

Lemma pass_keeps_names_unique_witness :
  NoDup (name <$> nodes (graph (sample_load directory_path used_world).1)).
Proof.
  apply (pass_keeps_names_unique fixed_width_split_text sample_loader
           sample_schema_of plain_repr enum_str directory_path used_world).
  vm_compute. apply NoDup_singleton.
Defined.

Lemma pass_keeps_nodes_in_place_witness :
  ∃ y, nodes (graph (sample_load directory_path used_world).1) !! 0 = Some y
       ∧ name y = "old.txt"
       ∧ ∀ documents, sample_loader directory_path = Ok documents →
           "old.txt" ∉ chunk_name <$> chunk_writes fixed_width_split_text documents →
           y = mkNode "old.txt" "kept" "text".
Proof.
  apply (pass_keeps_nodes_in_place fixed_width_split_text sample_loader
           sample_schema_of plain_repr enum_str directory_path used_world 0
           (mkNode "old.txt" "kept" "text")).
  reflexivity.
Defined.

Lemma pass_links_exactly_same_language_pairs_witness :
  (0, 1) ∈ edges (graph (sample_load directory_path fresh_world).1)
  ↔ (0, 1) ∈ edges (graph fresh_world)
    ∨ linkable (nodes (graph (sample_load directory_path fresh_world).1)) 0 1.
Proof.
  apply (pass_links_exactly_same_language_pairs fixed_width_split_text sample_loader
           sample_schema_of plain_repr enum_str directory_path sample_documents
           fresh_world 0 1).
  reflexivity.
Defined.

Lemma pass_keeps_edges_well_formed_witness :
  edges_wf (graph (sample_load directory_path fresh_world).1).
Proof.
  apply (pass_keeps_edges_well_formed fixed_width_split_text sample_loader
           sample_schema_of plain_repr enum_str directory_path fresh_world).
  intros i j Hin. vm_compute in Hin. discriminate.
Defined.

Lemma pass_node_names_witness :
  name <$> nodes (graph (sample_load directory_path used_world).1)
  ≡ₚ remove_dups ((name <$> nodes (graph used_world))
                    ++ (chunk_name <$> chunk_writes fixed_width_split_text
                                         sample_documents)).
Proof.
  apply (pass_node_names fixed_width_split_text sample_loader sample_schema_of
           plain_repr enum_str directory_path sample_documents used_world).
  - reflexivity.
  - vm_compute. apply NoDup_singleton.
Defined.

Lemma pass_over_empty_directory_witness :
  (load_source_code_to_graph fixed_width_split_text empty_directory_loader
     sample_schema_of plain_repr enum_str directory_path used_world).2 = Ok tt
  ∧ graph (load_source_code_to_graph fixed_width_split_text empty_directory_loader
             sample_schema_of plain_repr enum_str directory_path used_world).1
    = merge_same_language (graph used_world).
Proof.
  apply (pass_over_empty_directory fixed_width_split_text empty_directory_loader
           sample_schema_of plain_repr enum_str directory_path used_world).
  reflexivity.
Defined.

Lemma document_name_ignores_directory_witness :
  chunk_name (set_document_name
                (mkDocument "def parse(): pass"
                   (<["source" := "/repo/pkg" +:+ "/" +:+ "util.py"]> ∅)))
  = "util.py".
Proof.
  apply (document_name_ignores_directory "/repo/pkg" "util.py" "def parse(): pass" ∅).
  reflexivity.
Defined.

Lemma naming_changes_only_the_name_witness :
  page_content (set_document_name readme_document) = page_content readme_document
  ∧ (∀ key, key ≠ "name" →
       metadata (set_document_name readme_document) !! key
       = metadata readme_document !! key)
  ∧ (metadata readme_document !! "source" = None →
     chunk_name (set_document_name readme_document) = "Unknown")
  ∧ set_document_name (set_document_name readme_document)
    = set_document_name readme_document.
Proof. apply (naming_changes_only_the_name readme_document). Defined.

Lemma unreadable_response_becomes_error_answer_witness :
  (answer_query plain_repr stepless_chain "what does main do?" fresh_world).2
  = Ok "An error occurred while processing your query: list index out of range".
Proof.
  apply (unreadable_response_becomes_error_answer plain_repr stepless_chain
           "what does main do?" fresh_world
           (PyDict [("intermediate_steps", PyList [])])
           (IndexError "list index out of range")).
  - reflexivity.
  - reflexivity.
  - left. reflexivity.
Defined.

Lemma response_without_steps_witness :
  answer_query plain_repr plain_text_chain "what does main do?" fresh_world
  = (fresh_world, Ok "I don't know the answer.").
Proof.
  apply (response_without_steps plain_repr plain_text_chain "what does main do?"
           fresh_world (PyStr "I don't know the answer.")); reflexivity.
Defined.

Lemma short_content_is_shown_whole_witness :
  ∃ shown,
    (answer_query plain_repr sample_chain "show me the Go code" fresh_world).2
      = Ok shown
    ∧ String.length shown ≤ 1027
    ∧ (String.length "package main" ≤ 1000 →
       shown = "Found relevant content: " +:+ "package main" +:+ "...").
Proof.
  apply (short_content_is_shown_whole plain_repr sample_chain "show me the Go code"
           fresh_world
           (response_with_rows
              "MATCH (c:CodeChunk) WHERE c.language = 'go' RETURN c.content"
              [go_row; py_row])
           (PyStr "MATCH (c:CodeChunk) WHERE c.language = 'go' RETURN c.content")
           [("c.content", PyStr "package main")] [py_row] "package main");
    [reflexivity..|discriminate].
Defined.

Lemma loop_stops_at_exit_witness :
  question_loop plain_repr sample_chain
    (["show me the Go code"] ++ "Exit" :: ["show me the Rust code"]) fresh_world
  = question_loop plain_repr sample_chain
      (["show me the Go code"] ++ ["Exit"]) fresh_world.
Proof.
  apply (loop_stops_at_exit plain_repr sample_chain ["show me the Go code"] "Exit"
           ["show me the Rust code"] fresh_world).
  reflexivity.
Defined.

Lemma setup_failure_is_reported_and_raised_witness :
  setup_qa_chain empty_schema_of sample_chain_from_llm used_world
  = (mkWorld (graph used_world) (empty_schema_of (graph used_world))
       (trace used_world
          ++ [EvPrint ("Error setting up QA Chain: " +:+ exn_msg empty_schema_error)]),
     Raise empty_schema_error).
Proof.
  apply (setup_failure_is_reported_and_raised empty_schema_of sample_chain_from_llm
           used_world empty_schema_error).
  left. split; reflexivity.
Defined.

Lemma load_failure_at_startup_witness :
  app fixed_width_split_text missing_directory_loader sample_schema_of plain_repr
    enum_str sample_chain_from_llm ["exit"] fresh_world
  = (mkWorld (graph fresh_world) (schema fresh_world)
       (trace fresh_world
          ++ [EvLoad directory_path;
              EvPrint ("Error loading source code: "
                         +:+ "No such file or directory")]),
     Raise (Exception "FileNotFoundError" "No such file or directory"))
  ∧ main fixed_width_split_text missing_directory_loader sample_schema_of plain_repr
      enum_str sample_chain_from_llm ["exit"] fresh_world
    = (mkWorld (graph fresh_world) (schema fresh_world)
         (trace fresh_world
            ++ [EvPrint ("Loading source code from: " +:+ directory_path);
                EvLoad directory_path;
                EvPrint ("Error loading source code: " +:+ "No such file or directory");
                EvPrint ("An error occurred: " +:+ "No such file or directory");
                EvPrint "Exiting the program."]),
       Ok tt).
Proof.
  apply (load_failure_at_startup fixed_width_split_text missing_directory_loader
           sample_schema_of plain_repr enum_str sample_chain_from_llm ["exit"]
           fresh_world (Exception "FileNotFoundError" "No such file or directory")).
  reflexivity.
Defined.

Lemma main_without_chain_never_prompts_witness :
  ∃ lines,
    main fixed_width_split_text sample_loader sample_schema_of plain_repr enum_str
      failing_chain_from_llm ["what does main do?"] fresh_world
    = (mkWorld (ingest fixed_width_split_text sample_documents (graph fresh_world))
         (sample_schema_of
            (ingest fixed_width_split_text sample_documents (graph fresh_world)))
         (trace fresh_world
            ++ EvPrint ("Loading source code from: " +:+ directory_path)
            :: EvLoad directory_path :: (EvPrint <$> lines)
            ++ [EvPrint ("Error setting up QA Chain: "
                           +:+ "The api_key client option must be set");
                EvPrint ("An error occurred: "
                           +:+ "The api_key client option must be set");
                EvPrint "Exiting the program."]),
       Ok tt).
Proof.
  apply (main_without_chain_never_prompts fixed_width_split_text sample_loader
           sample_schema_of plain_repr enum_str failing_chain_from_llm
           ["what does main do?"] fresh_world sample_documents
           (Exception "OpenAIError" "The api_key client option must be set")).
  - reflexivity.
  - right. split; [vm_compute; discriminate|reflexivity].
Defined.

Lemma main_ends_cleanly_at_end_of_input_witness :
  (main fixed_width_split_text sample_loader sample_schema_of plain_repr enum_str
     sample_chain_from_llm ["show me the Go code"] fresh_world).2 = Ok tt
  ∧ ∃ pre,
      trace (main fixed_width_split_text sample_loader sample_schema_of plain_repr
               enum_str sample_chain_from_llm ["show me the Go code"] fresh_world).1
      = pre ++ [EvPrint "An error occurred: EOF when reading a line";
                EvPrint "Exiting the program."].
Proof.
  apply (main_ends_cleanly_at_end_of_input fixed_width_split_text sample_loader
           sample_schema_of plain_repr enum_str sample_chain_from_llm
           ["show me the Go code"] fresh_world sample_documents sample_chain).
  - reflexivity.
  - vm_compute. discriminate.
  - reflexivity.
  - reflexivity.
Defined.

Lemma draft_splitter_failure_witness :
  Draft.load_source_code_to_graph unsupported_language_list sample_loader
    sample_schema_of plain_repr directory_path used_world
  = (mkWorld (graph used_world) (schema used_world)
       (trace used_world
          ++ [EvLoad directory_path;
              EvPrint ("Loaded documents: "
                         +:+ plain_repr (PyList ((λ doc, PyStr (chunk_name doc))
                                                   <$> sample_documents)));
              EvPrint ("Error loading source code: " +:+ "Language is not supported!")]),
     Raise (Exception "ValueError" "Language is not supported!")).
Proof.
  apply (draft_splitter_failure unsupported_language_list sample_loader
           sample_schema_of plain_repr directory_path sample_documents
           (Exception "ValueError" "Language is not supported!") used_world);
    reflexivity.
Defined.


Lemma draft_setup_failure_returns_none_witness :
  Draft.setup_qa_chain sample_schema_of failing_chain_from_llm used_world
  = (mkWorld (graph used_world) (sample_schema_of (graph used_world))
       (trace used_world
          ++ [EvPrint ("Error setting up QA Chain: "
                         +:+ "The api_key client option must be set")]),
     Ok None).
Proof.
  apply (draft_setup_failure_returns_none sample_schema_of failing_chain_from_llm
           used_world (Exception "OpenAIError" "The api_key client option must be set")).
  right. split; [vm_compute; discriminate|reflexivity].
Defined.

Lemma draft_question_error_ends_loop_witness :
  Draft.question_loop plain_repr (Some sample_chain)
    ("show me the Go code" :: ["exit"]) fresh_world
  = (mkWorld (graph fresh_world) (schema fresh_world)
       (trace fresh_world ++ [EvInput prompt]),
     Raise (KeyError "'result'")).
Proof.
  apply (draft_question_error_ends_loop plain_repr (Some sample_chain)
           "show me the Go code" ["exit"] (KeyError "'result'") fresh_world).
  - reflexivity.
  - right. exists sample_chain. split; [reflexivity|].
    right. eexists. split; reflexivity.
Defined.

Lemma draft_main_without_chain_witness :
  graph (Draft.main sample_text_splitter sample_loader sample_schema_of plain_repr
           failing_chain_from_llm ("what does main do?" :: ["exit"]) fresh_world).1
  = merge_same_language
      (apply_writes
         (Draft.split_documents (fixed_width_split_text PYTHON) sample_documents)
         (graph fresh_world))
  ∧ (Draft.main sample_text_splitter sample_loader sample_schema_of plain_repr
       failing_chain_from_llm ("what does main do?" :: ["exit"]) fresh_world).2
    = Raise (AttributeError "'NoneType' object has no attribute 'invoke'").
Proof.
  apply (draft_main_without_chain sample_text_splitter sample_loader
           sample_schema_of plain_repr failing_chain_from_llm
           "what does main do?" ["exit"] sample_documents
           (fixed_width_split_text PYTHON)
           (Exception "OpenAIError" "The api_key client option must be set")
           fresh_world).
  - reflexivity.
  - reflexivity.
  - right. split; [vm_compute; discriminate|reflexivity].
Defined.
